(** * Task dispatch core: tasks, agents, orchestrator and workflow runner

    A shallow embedding of [src/agents/base_agent.py] and
    [src/agents/orchestrator.py], with the parts of
    [src/agents/content_creator.py] that the driver interacts with.

    Python objects that are shared and mutated in place (the [Task]
    instances held at the same time by an agent's table, by the queue, by
    the ledgers and by the workflow runner) live in an object store and are
    referred to by their index in it.  Dictionaries are association lists
    in insertion order, which is the order Python iterates them in. *)

From Stdlib Require Import List String Ascii ZArith QArith Bool Arith Lia.
From Stdlib Require Import DecimalString Permutation.
Import ListNotations.
Open Scope string_scope.

(** ** Python values *)

(** The opaque [Dict[str, Any]] payloads and results. *)
#[warnings="-register-all"]
Inductive pyval : Type :=
| PyNone
| PyBool (b : bool)
| PyInt (z : Z)
| PyStr (s : string)
| PyList (l : list pyval)
| PyDict (d : list (string * pyval)).

Definition is_none (v : pyval) : bool :=
  match v with PyNone => true | _ => false end.

(** Outcome of an operation that may raise. *)
Inductive res (A : Type) : Type :=
| Ok (a : A)
| Raised (exc : string).
Arguments Ok {A} a.
Arguments Raised {A} exc.

(** ** Dictionaries in insertion order *)

Section Dict.
Context {V : Type}.

(** [d.get(k)] *)
Fixpoint dict_get (d : list (string * V)) (k : string) : option V :=
  match d with
  | [] => None
  | (k', v) :: d' => if String.eqb k' k then Some v else dict_get d' k
  end.

(** [d[k] = v]: an existing key keeps its position, a new key goes last. *)
Fixpoint dict_set (d : list (string * V)) (k : string) (v : V)
  : list (string * V) :=
  match d with
  | [] => [(k, v)]
  | (k', v') :: d' =>
      if String.eqb k' k then (k', v) :: d' else (k', v') :: dict_set d' k v
  end.

(** [d.values()] *)
Definition dict_values (d : list (string * V)) : list V := map snd d.

(** [d.keys()] *)
Definition dict_keys (d : list (string * V)) : list string := map fst d.
End Dict.

(** ** Task *)

(** [datetime] values are points of the local time line, in microseconds. *)
Definition datetime := Z.

Record Task : Type := mkTask {
  id : string;
  type : string;
  payload : pyval;
  status : string;              (* pending, running, completed, failed *)
  result : pyval;               (* Optional: PyNone when unset *)
  error : option string;
  created_at : datetime;
  started_at : option datetime;
  completed_at : option datetime
}.

Definition set_status (s : string) (t : Task) : Task :=
  mkTask (id t) (type t) (payload t) s (result t) (error t)
         (created_at t) (started_at t) (completed_at t).

Definition set_result (r : pyval) (t : Task) : Task :=
  mkTask (id t) (type t) (payload t) (status t) r (error t)
         (created_at t) (started_at t) (completed_at t).

Definition set_error (e : option string) (t : Task) : Task :=
  mkTask (id t) (type t) (payload t) (status t) (result t) e
         (created_at t) (started_at t) (completed_at t).

Definition set_started_at (d : option datetime) (t : Task) : Task :=
  mkTask (id t) (type t) (payload t) (status t) (result t) (error t)
         (created_at t) d (completed_at t).

Definition set_completed_at (d : option datetime) (t : Task) : Task :=
  mkTask (id t) (type t) (payload t) (status t) (result t) (error t)
         (created_at t) (started_at t) d.

Definition pending := "pending".
Definition running := "running".
Definition completed := "completed".
Definition failed := "failed".

(** [Task(type=task_type, payload=payload)]: every other field takes its
    dataclass default. *)
Definition new_task (uid : string) (clock : datetime)
                    (task_type : string) (p : pyval) : Task :=
  mkTask uid task_type p pending PyNone None clock None None.

(** *** [Task.to_dict] *)

Section ToDict.
(** [datetime.isoformat], from the Python standard library. *)
Variable isoformat : datetime -> string.

(** [x.isoformat()] on an attribute that may hold [None]: the method
    lookup on [None] raises. *)
Definition call_isoformat (x : option datetime) : res string :=
  match x with
  | Some d => Ok (isoformat d)
  | None => Raised "AttributeError"
  end.

(** [x.isoformat() if x else None]; a [datetime] is always truthy. *)
Definition isoformat_if_set (x : option datetime) : res pyval :=
  match x with
  | Some d =>
      match call_isoformat x with
      | Ok s => Ok (PyStr s)
      | Raised e => Raised e
      end
  | None => Ok PyNone
  end.

Definition py_of_error (e : option string) : pyval :=
  match e with Some s => PyStr s | None => PyNone end.

Definition to_dict (t : Task) : res (list (string * pyval)) :=
  match call_isoformat (Some (created_at t)) with
  | Raised e => Raised e
  | Ok c =>
      match isoformat_if_set (started_at t) with
      | Raised e => Raised e
      | Ok s =>
          match isoformat_if_set (completed_at t) with
          | Raised e => Raised e
          | Ok f =>
              Ok [ ("id", PyStr (id t));
                   ("type", PyStr (type t));
                   ("payload", payload t);
                   ("status", PyStr (status t));
                   ("result", result t);
                   ("error", py_of_error (error t));
                   ("created_at", PyStr c);
                   ("started_at", s);
                   ("completed_at", f) ]
          end
      end
  end.
End ToDict.

(** ** BaseAgent *)

(** What [execute] hands back to [process_task]: the very task object it
    was given, another [Task] object, or any other value. *)
Inductive Returned : Type :=
| RetSelf
| RetTask (other : Task)
| RetValue (v : pyval).

Inductive Outcome : Type :=
| Return (r : Returned)
| Raise (msg : string).

(** An agent.  [execute] is the abstract method: it receives the task
    object, may assign to its fields, and returns or raises; the first
    component of its value is the task object as [execute] left it.
    [_tasks] refers to the agent's own dictionary object, which maps a task
    id to the reference of the task object. *)
Record BaseAgent : Type := mkAgent {
  name : string;
  capabilities : list string;
  _tasks : nat;
  execute : Task -> Task * Outcome
}.

Definition can_handle (a : BaseAgent) (task_type : string) : bool :=
  existsb (String.eqb task_type) (capabilities a).

Definition mismatch_message (a : BaseAgent) (t : Task) : string :=
  "Agent " ++ name a ++ " cannot handle task type: " ++ type t.

Definition validate_task (a : BaseAgent) (t : Task) : Task * bool :=
  if negb (can_handle a (type t)) then
    let t := set_error (Some (mismatch_message a t)) t in
    let t := set_status failed t in
    (t, false)
  else (t, true).

(** [result.result if isinstance(result, Task) else result], read once
    [status] and [completed_at] have been assigned on [t]. *)
Definition returned_result (r : Returned) (t : Task) : pyval :=
  match r with
  | RetSelf => result t
  | RetTask other => result other
  | RetValue v => v
  end.

Section Clock.
(** [now n] is the value of the [n]-th call of [datetime.now()]. *)
Variable now : nat -> datetime.

(** [process_task a k t]: the task object after the call, and the number
    of clock readings made so far ([k] before the call). *)
Definition process_task (a : BaseAgent) (k : nat) (t : Task) : Task * nat :=
  let (t, valid) := validate_task a t in
  if negb valid then (t, k)
  else
    let t := set_status running t in
    let t := set_started_at (Some (now k)) t in
    match execute a t with
    | (t, Return r) =>
        let t := set_status completed t in
        let t := set_completed_at (Some (now (S k))) t in
        let t := set_result (returned_result r t) t in
        (t, S (S k))
    | (t, Raise msg) =>
        let t := set_status failed t in
        let t := set_error (Some msg) t in
        let t := set_completed_at (Some (now (S k))) t in
        (t, S (S k))
    end.

(** The same body, keeping the task object as it stands before the call
    and after every statement that touches it, oldest first. *)
Definition process_task_trace (a : BaseAgent) (k : nat) (t : Task)
  : list Task :=
  if negb (can_handle a (type t)) then
    let t1 := set_error (Some (mismatch_message a t)) t in
    let t2 := set_status failed t1 in
    [t; t1; t2]
  else
    let t1 := set_status running t in
    let t2 := set_started_at (Some (now k)) t1 in
    match execute a t2 with
    | (t3, Return r) =>
        let t4 := set_status completed t3 in
        let t5 := set_completed_at (Some (now (S k))) t4 in
        let t6 := set_result (returned_result r t5) t5 in
        [t; t1; t2; t3; t4; t5; t6]
    | (t3, Raise msg) =>
        let t4 := set_status failed t3 in
        let t5 := set_error (Some msg) t4 in
        let t6 := set_completed_at (Some (now (S k))) t5 in
        [t; t1; t2; t3; t4; t5; t6]
    end.
End Clock.

(** ** The interpreter state and the orchestrator *)

(** The first five fields are the attributes of the [AgentOrchestrator]
    instance.  [objects] holds the [Task] objects allocated so far and
    [tables] the [_tasks] dictionaries of the agents constructed so far (a
    reference is a position); [clock_reads] and [uuid_draws] count the calls
    of [datetime.now()] and [uuid.uuid4()] made so far. *)
Record World : Type := mkWorld {
  agents : list (string * BaseAgent);
  task_queue : list (string * nat);
  completed_tasks : list nat;
  failed_tasks : list nat;
  _is_running : bool;
  objects : list Task;
  tables : list (list (string * nat));
  clock_reads : nat;
  uuid_draws : nat
}.

(** [AgentOrchestrator()] in a fresh interpreter. *)
Definition init_world : World :=
  mkWorld [] [] [] [] false [] [] 0 0.

Definition with_agents (x : list (string * BaseAgent)) (w : World) : World :=
  mkWorld x (task_queue w) (completed_tasks w) (failed_tasks w)
          (_is_running w) (objects w) (tables w) (clock_reads w) (uuid_draws w).

Definition with_task_queue (x : list (string * nat)) (w : World) : World :=
  mkWorld (agents w) x (completed_tasks w) (failed_tasks w)
          (_is_running w) (objects w) (tables w) (clock_reads w) (uuid_draws w).

Definition with_completed_tasks (x : list nat) (w : World) : World :=
  mkWorld (agents w) (task_queue w) x (failed_tasks w)
          (_is_running w) (objects w) (tables w) (clock_reads w) (uuid_draws w).

Definition with_failed_tasks (x : list nat) (w : World) : World :=
  mkWorld (agents w) (task_queue w) (completed_tasks w) x
          (_is_running w) (objects w) (tables w) (clock_reads w) (uuid_draws w).

Definition with_is_running (x : bool) (w : World) : World :=
  mkWorld (agents w) (task_queue w) (completed_tasks w) (failed_tasks w)
          x (objects w) (tables w) (clock_reads w) (uuid_draws w).

Definition with_objects (x : list Task) (w : World) : World :=
  mkWorld (agents w) (task_queue w) (completed_tasks w) (failed_tasks w)
          (_is_running w) x (tables w) (clock_reads w) (uuid_draws w).

Definition with_tables (x : list (list (string * nat))) (w : World) : World :=
  mkWorld (agents w) (task_queue w) (completed_tasks w) (failed_tasks w)
          (_is_running w) (objects w) x (clock_reads w) (uuid_draws w).

Definition with_clock_reads (x : nat) (w : World) : World :=
  mkWorld (agents w) (task_queue w) (completed_tasks w) (failed_tasks w)
          (_is_running w) (objects w) (tables w) x (uuid_draws w).

Definition with_uuid_draws (x : nat) (w : World) : World :=
  mkWorld (agents w) (task_queue w) (completed_tasks w) (failed_tasks w)
          (_is_running w) (objects w) (tables w) (clock_reads w) x.

(** In-place update of the object at position [n]; a position that holds
    no object is left alone. *)
Fixpoint update_nth {A : Type} (n : nat) (x : A) (l : list A) : list A :=
  match l, n with
  | [], _ => []
  | _ :: l', O => x :: l'
  | y :: l', S n' => y :: update_nth n' x l'
  end.

(** The task object a reference points to. *)
Definition deref (w : World) (r : nat) : option Task := nth_error (objects w) r.

(** The [_tasks] dictionary of an agent. *)
Definition table_of (w : World) (a : BaseAgent) : list (string * nat) :=
  nth (_tasks a) (tables w) [].

(** [BaseAgent.__init__]: a new agent with an empty [_tasks] dictionary. *)
Definition new_agent (n : string) (caps : list string)
                     (exec : Task -> Task * Outcome) (w : World)
  : BaseAgent * World :=
  (mkAgent n caps (List.length (tables w)) exec, with_tables (tables w ++ [[]])%list w).

Section Orchestrator.
Variable now : nat -> datetime.
(** [uuid4 n] is [str] of the [n]-th value drawn from [uuid.uuid4()]. *)
Variable uuid4 : nat -> string.

(** *** Agent accessors that go through the store *)

Definition create_task (a : BaseAgent) (task_type : string) (p : pyval)
                       (w : World) : nat * World :=
  let task := new_task (uuid4 (uuid_draws w)) (now (clock_reads w))
                       task_type p in
  let r := List.length (objects w) in
  let w := with_uuid_draws (S (uuid_draws w)) w in
  let w := with_clock_reads (S (clock_reads w)) w in
  let w := with_objects (objects w ++ [task])%list w in
  let w := with_tables
             (update_nth (_tasks a) (dict_set (table_of w a) (id task) r)
                         (tables w)) w in
  (r, w).

Definition get_task (a : BaseAgent) (task_id : string) (w : World)
  : option nat :=
  dict_get (table_of w a) task_id.

(** [get_tasks()] without a filter: the objects of the table, in order. *)
Definition get_tasks (a : BaseAgent) (w : World) : list Task :=
  flat_map (fun r => match deref w r with Some t => [t] | None => [] end)
           (dict_values (table_of w a)).

(** *** AgentOrchestrator *)

Definition register_agent (a : BaseAgent) (w : World) : World :=
  with_agents (dict_set (agents w) (name a) a) w.

Definition get_agent (w : World) (agent_name : string) : option BaseAgent :=
  dict_get (agents w) agent_name.

Definition find_agent_for_task (w : World) (task_type : string)
  : option BaseAgent :=
  find (fun a => can_handle a task_type) (dict_values (agents w)).

(** Truth value of the [agent_name] argument: [None] and the empty
    string are false. *)
Definition truthy_name (agent_name : option string) : option string :=
  match agent_name with
  | Some n => if String.eqb n "" then None else Some n
  | None => None
  end.

(** The agent [submit_task] settles on, or [None] where it returns
    [None]. *)
Definition route (w : World) (task_type : string)
                 (agent_name : option string) : option BaseAgent :=
  match truthy_name agent_name with
  | Some n =>
      match get_agent w n with
      | Some a => if negb (can_handle a task_type) then None else Some a
      | None => None
      end
  | None => find_agent_for_task w task_type
  end.

Definition submit_task (task_type : string) (p : pyval)
                       (agent_name : option string) (w : World)
  : option nat * World :=
  match route w task_type agent_name with
  | None => (None, w)
  | Some a =>
      let (task, w) := create_task a task_type p w in
      let w := with_task_queue (task_queue w ++ [(name a, task)])%list w in
      (Some task, w)
  end.

Definition process_tasks (w : World) : World := with_is_running true w.

Definition stop (w : World) : World := with_is_running false w.

(** One pass through the body of the [while] loop of [_worker].  With an
    empty queue [wait_for] times out and the loop continues.  The queue only
    holds references handed out by [create_task], so the object is there;
    the pass is taken to leave the state alone otherwise.  A pass is atomic
    here: a poller that would see the status [running] while [execute] is
    suspended treats it as it treats [pending]. *)
Definition worker_iteration (w : World) : World :=
  match task_queue w with
  | [] => w
  | (agent_name, task) :: rest =>
      let w := with_task_queue rest w in
      match get_agent w agent_name with
      | Some agent =>
          match deref w task with
          | Some t =>
              let (t', k) := process_task now agent (clock_reads w) t in
              let w := with_clock_reads k w in
              let w := with_objects (update_nth task t' (objects w)) w in
              if String.eqb (status t') completed
              then with_completed_tasks (completed_tasks w ++ [task])%list w
              else with_failed_tasks (failed_tasks w ++ [task])%list w
          | None => w
          end
      | None => w
      end
  end.

(** [_worker]: at most [n] passes of the loop. *)
Fixpoint _worker (n : nat) (w : World) : World :=
  match n with
  | O => w
  | S n' => if _is_running w then _worker n' (worker_iteration w) else w
  end.
End Orchestrator.

(** *** [get_system_status] *)

Record AgentStatus : Type := mkAgentStatus {
  status_capabilities : list string;
  tasks_completed : nat;
  tasks_failed : nat;
  tasks_running : nat;
  agent_success_rate : Q
}.

Record SystemStatus : Type := mkSystemStatus {
  total_tasks_processed : nat;
  success_rate : Q;
  queue_size : nat;
  agents_status : list (string * AgentStatus);
  is_running : bool
}.

Definition Qnat (n : nat) : Q := inject_Z (Z.of_nat n).

(** [(good / total * 100) if total > 0 else 0].  The quotient and the
    product are the exact ones; Python rounds each of them to a float. *)
Definition percentage (good total : nat) : Q :=
  if (0 <? total)%nat then (Qnat good / Qnat total * 100)%Q else 0%Q.

(** [len([t for t in ts if t.status == s])] *)
Definition count_status (s : string) (ts : list Task) : nat :=
  List.length (filter (fun t => String.eqb (status t) s) ts).

Definition agent_status_of (w : World) (agent : BaseAgent) : AgentStatus :=
  let agent_tasks := get_tasks agent w in
  let ncompleted := count_status completed agent_tasks in
  let nfailed := count_status failed agent_tasks in
  let nrunning := count_status running agent_tasks in
  mkAgentStatus (capabilities agent) ncompleted nfailed nrunning
                (percentage ncompleted (ncompleted + nfailed)).

Definition get_system_status (w : World) : SystemStatus :=
  let total_tasks :=
    (List.length (completed_tasks w) + List.length (failed_tasks w))%nat in
  let rate := percentage (List.length (completed_tasks w)) total_tasks in
  mkSystemStatus total_tasks rate (List.length (task_queue w))
    (map (fun kv => (fst kv, agent_status_of w (snd kv))) (agents w))
    (_is_running w).

(** *** [execute_workflow] *)

(** A workflow step: the dictionary keys ['type'], ['payload'], ['agent']
    and ['continue_on_failure'], the last three optional;
    [continue_on_failure] holds the truth value of the entry. *)
Record Step : Type := mkStep {
  step_type : string;
  step_payload : option pyval;
  step_agent : option string;
  continue_on_failure : option bool
}.

(** How a coroutine ends: it returns a value, an exception leaves it, or it
    is still polling when the observation stops. *)
Inductive outcome (A : Type) : Type :=
| Done (a : A) (w : World) (sleeps : nat)
| Error (exc : string) (w : World)
| Unfinished.
Arguments Done {A} a w sleeps.
Arguments Error {A} exc w.
Arguments Unfinished {A}.

Section Workflow.
Variable now : nat -> datetime.
Variable uuid4 : nat -> string.
(** [sched n]: the passes the pump loops make through their body while
    the runner is in its [n]-th [asyncio.sleep(0.1)]. *)
Variable sched : nat -> nat.

Definition during_sleep (n : nat) (w : World) : World :=
  _worker now (sched n) w.

Definition not_terminal (s : string) : bool :=
  String.eqb s pending || String.eqb s running.

(** The [while task.status in ['pending', 'running']] loop; [task] is the
    loop variable, which the body may set to [None]. *)
Fixpoint wait_for_completion (fuel : nat) (agent_name : option string)
         (task : option nat) (w : World) (n : nat) : outcome nat :=
  match fuel with
  | O => Unfinished
  | S fuel' =>
      match task with
      | None => Error "AttributeError" w        (* None.status *)
      | Some r =>
          match deref w r with
          | None => Error "ReferenceError" w    (* objects are never freed *)
          | Some t =>
              if not_terminal (status t) then
                let w := during_sleep n w in
                match truthy_name agent_name with
                | Some nm =>
                    match get_agent w nm, deref w r with
                    | Some a, Some t' =>
                        wait_for_completion fuel' agent_name
                          (get_task a (id t') w) w (S n)
                    | None, _ => Error "AttributeError" w  (* None.get_task *)
                    | _, None => Error "ReferenceError" w
                    end
                | None => wait_for_completion fuel' agent_name None w (S n)
                end
              else Done r w n
          end
      end
  end.

Definition stops_workflow (w : World) (task : nat) (step : Step) : bool :=
  match deref w task with
  | Some t =>
      String.eqb (status t) failed
      && negb (match continue_on_failure step with
               | Some b => b
               | None => true
               end)
  | None => false
  end.

Definition payload_of (step : Step) : pyval :=
  match step_payload step with Some p => p | None => PyDict [] end.

(** The [for step in workflow] loop with [results] collected so far. *)
Fixpoint workflow_loop (fuel : nat) (workflow : list Step)
         (results : list nat) (w : World) (n : nat) : outcome (list nat) :=
  match workflow with
  | [] => Done results w n
  | step :: rest =>
      let (task, w) :=
        submit_task now uuid4 (step_type step) (payload_of step)
                    (step_agent step) w in
      match task with
      | None => workflow_loop fuel rest results w n
      | Some r =>
          match wait_for_completion fuel (step_agent step) (Some r) w n with
          | Done task w n =>
              let results := (results ++ [task])%list in
              if stops_workflow w task step then Done results w n
              else workflow_loop fuel rest results w n
          | Error e w => Error e w
          | Unfinished => Unfinished
          end
      end
  end.

Definition execute_workflow (fuel : nat) (workflow : list Step) (w : World)
  : outcome (list nat) :=
  workflow_loop fuel workflow [] w 0.
End Workflow.

(** ** ContentCreatorAgent *)

Section ContentCreator.
(** The four handlers call the language-model wrapper, which is outside
    this repository; each is taken as given. *)
Variables _create_blog_post _create_social_media_post
          _create_video_script _optimize_content : Task -> Task * Outcome.

Definition content_creator_capabilities : list string :=
  [ "blog_post"; "social_media_post"; "email_newsletter";
    "video_script"; "ad_copy"; "product_description";
    "content_optimization"; "seo_analysis" ].

Definition content_creator_execute (task : Task) : Task * Outcome :=
  if String.eqb (type task) "blog_post" then _create_blog_post task
  else if String.eqb (type task) "social_media_post"
       then _create_social_media_post task
  else if String.eqb (type task) "video_script"
       then _create_video_script task
  else if String.eqb (type task) "content_optimization"
       then _optimize_content task
  else
    (set_error (Some ("Unsupported task type: " ++ type task)) task,
     Return RetSelf).

(** [ContentCreatorAgent(config)] *)
Definition ContentCreatorAgent (w : World) : BaseAgent * World :=
  new_agent "content_creator" content_creator_capabilities
            content_creator_execute w.
End ContentCreator.

(** ** Fixtures used to run the model on concrete inputs *)

Definition demo_now (n : nat) : datetime := (1000 + Z.of_nat n)%Z.

Definition demo_uuid4 (n : nat) : string :=
  "task-" ++ NilEmpty.string_of_uint (Nat.to_uint n).

Definition demo_isoformat (d : datetime) : string :=
  "T+" ++ NilEmpty.string_of_int (Z.to_int d).

(** One pump pass per sleep of the workflow runner. *)
Definition demo_sched (n : nat) : nat := 1.

(** [execute] of a worker that returns [{"echoed": payload["text"]}]. *)
Definition echo_execute (t : Task) : Task * Outcome :=
  let text :=
    match payload t with
    | PyDict d => match dict_get d "text" with Some v => v | None => PyNone end
    | _ => PyNone
    end in
  (t, Return (RetValue (PyDict [("echoed", text)]))).

(** [execute] of a worker that always raises ["boom"]. *)
Definition boom_execute (t : Task) : Task * Outcome := (t, Raise "boom").

(** The language-model handlers, when the model is unreachable: each one
    catches the failure, assigns [task.error] and returns the task. *)
Definition offline_handler (what : string) (t : Task) : Task * Outcome :=
  (set_error (Some ("Failed to " ++ what ++ ": offline")) t, Return RetSelf).

(** ** Status paths *)

(** The values a field takes in turn: consecutive repetitions count once. *)
Fixpoint visited (l : list string) : list string :=
  match l with
  | [] => []
  | x :: l' =>
      match l' with
      | y :: _ => if String.eqb x y then visited l' else x :: visited l'
      | [] => [x]
      end
  end.

(** Once the sequence has left [s] it never shows [s] again. *)
Fixpoint never_returns_to (s : string) (l : list string) : bool :=
  match l with
  | [] => true
  | x :: l' =>
      if String.eqb x s then
        match l' with
        | y :: _ =>
            if String.eqb y s then never_returns_to s l'
            else negb (existsb (String.eqb s) l')
        | [] => true
        end
      else never_returns_to s l'
  end.

Definition status_path (now : nat -> datetime) (a : BaseAgent) (k : nat)
                       (t : Task) : list string :=
  map status (process_task_trace now a k t).

(** An [execute] that honours the driver's ownership of [status]. *)
Definition keeps_status (a : BaseAgent) : Prop :=
  forall t, status (fst (execute a t)) = status t.

(** ** Registration histories *)

(** The registry after the calls [register_agent(a)] for [a] in [regs], in
    that order, on a new orchestrator. *)
Definition registry (regs : list BaseAgent) : World :=
  fold_left (fun w a => register_agent a w) regs init_world.

(** A registration is still in force when no later one uses its name. *)
Definition in_force (later : list BaseAgent) (a : BaseAgent) : bool :=
  negb (existsb (fun b => String.eqb (name b) (name a)) later).

(** The registered workers, in the order of their registration. *)
Fixpoint registration_order (regs : list BaseAgent) : list BaseAgent :=
  match regs with
  | [] => []
  | a :: later =>
      if in_force later a then a :: registration_order later
      else registration_order later
  end.

(** The first worker in registration order whose capabilities include
    [kind]. *)
Definition first_in_registration_order (regs : list BaseAgent)
                                       (kind : string) : option BaseAgent :=
  find (fun a => can_handle a kind) (registration_order regs).

(** The names in the order in which each was registered for the first
    time. *)
Definition first_names (regs : list BaseAgent) : list string :=
  fold_left (fun acc a =>
               if existsb (String.eqb (name a)) acc then acc
               else (acc ++ [name a])%list)
            regs [].

(** The agent registered last under the name [n]. *)
Definition last_registered (regs : list BaseAgent) (n : string)
  : option BaseAgent :=
  find (fun a => String.eqb (name a) n) (rev regs).

Definition option_list {A : Type} (o : option A) : list A :=
  match o with Some a => [a] | None => [] end.

(** The registered workers by the position of their name: a worker
    registered under a name already in use takes the place of the one it
    replaces. *)
Definition slot_order (regs : list BaseAgent) : list BaseAgent :=
  flat_map (fun n => option_list (last_registered regs n)) (first_names regs).

(** ** Routing and metrics as the specification words them *)


(** [successRate = |completed| / totalTerminal], and 0 without terminal
    tasks. *)
Definition ratio_success_rate (w : World) : Q :=
  let total :=
    (List.length (completed_tasks w) + List.length (failed_tasks w))%nat in
  if (total =? 0)%nat then 0%Q
  else (Qnat (List.length (completed_tasks w)) / Qnat total)%Q.

(** ** Scenarios *)

Definition agent_in (mk : World -> BaseAgent * World) (w : World) : World :=
  let (a, w) := mk w in register_agent a w.

(** Worker ["w1"] with capability ["echo"]. *)
Definition world_w1 : World :=
  agent_in (new_agent "w1" ["echo"] echo_execute) init_world.

(** Workers ["w1"] (echo) and ["w2"] (capability ["fail"], always raises),
    with the pump loops started. *)
Definition world_w1_w2 : World :=
  process_tasks (agent_in (new_agent "w2" ["fail"] boom_execute) world_w1).

Definition hi_payload : pyval := PyDict [("text", PyStr "hi")].

(** The content creator with its language model unreachable. *)
Definition world_content : World :=
  process_tasks
    (agent_in (ContentCreatorAgent
                 (offline_handler "create blog post")
                 (offline_handler "create social media post")
                 (offline_handler "create video script")
                 (offline_handler "optimize content"))
              init_world).

(** ["w1"] accepts an ["echo"] task, then the name ["w1"] is registered
    again for a worker that only knows ["shout"]. *)
Definition world_reregistered : World :=
  let w := process_tasks world_w1 in
  let w := snd (submit_task demo_now demo_uuid4 "echo" hi_payload None w) in
  agent_in (new_agent "w1" ["shout"] echo_execute) w.

(** The queue of [world_w1_w2] after [submit_task("fail", {})]. *)
Definition world_fail_queued : World :=
  snd (submit_task demo_now demo_uuid4 "fail" (PyDict []) None world_w1_w2).

(** The queue of [world_w1_w2] after [submit_task("echo", {"text": "hi"})],
    and the state after one pass of a pump loop. *)
Definition world_echo_queued : World :=
  snd (submit_task demo_now demo_uuid4 "echo" hi_payload None world_w1_w2).

Definition world_echo_done : World :=
  worker_iteration demo_now world_echo_queued.

(** A registration history in which the name ["w1"] is used twice. *)
Definition w1_knows_a : BaseAgent := mkAgent "w1" ["a"] 0 echo_execute.
Definition w2_knows_b : BaseAgent := mkAgent "w2" ["b"] 1 echo_execute.
Definition w1_knows_b : BaseAgent := mkAgent "w1" ["b"] 2 echo_execute.

Definition history_w1_twice : list BaseAgent :=
  [w1_knows_a; w2_knows_b; w1_knows_b].

(** Workflow steps. *)
Definition step_echo_routed : Step :=
  mkStep "echo" (Some hi_payload) None None.
Definition step_echo_w1 : Step :=
  mkStep "echo" (Some hi_payload) (Some "w1") None.
Definition step_fail_stop : Step :=
  mkStep "fail" None (Some "w2") (Some false).
Definition step_fail_default : Step :=
  mkStep "fail" None (Some "w2") None.
Definition step_fail_routed_stop : Step :=
  mkStep "fail" None None (Some false).
Definition step_echo_routed_stop : Step :=
  mkStep "echo" (Some hi_payload) None (Some false).
Definition step_fail_routed : Step :=
  mkStep "fail" None None None.

(** What an outcome ended with. *)
Definition outcome_world {A : Type} (o : outcome A) : World :=
  match o with
  | Done _ w _ => w
  | Error _ w => w
  | Unfinished => init_world
  end.

Definition outcome_exception {A : Type} (o : outcome A) : option string :=
  match o with
  | Error e _ => Some e
  | _ => None
  end.

Definition outcome_value {A : Type} (o : outcome A) : option A :=
  match o with
  | Done a _ _ => Some a
  | _ => None
  end.

(** ** Further operations of the agents *)

(** [get_tasks(status)]: the filter applies when [status] is true, that
    is, neither [None] nor the empty string. *)
Definition get_tasks_with (a : BaseAgent) (status_filter : option string)
                          (w : World) : list Task :=
  match status_filter with
  | Some s =>
      if String.eqb s "" then get_tasks a w
      else filter (fun task => String.eqb (status task) s) (get_tasks a w)
  | None => get_tasks a w
  end.

(** *** SocialMediaManagerAgent *)

Section SocialMediaManager.
(** The dispatch of [execute] does not look into its handlers; they enter
    as they are. *)
Variables _schedule_post _analyze_performance _engage_audience
          _track_mentions _generate_report : Task -> Task * Outcome.

Definition social_media_capabilities : list string :=
  [ "schedule_post"; "analyze_performance"; "engage_audience";
    "track_mentions"; "generate_report"; "optimize_strategy" ].

Definition social_media_execute (task : Task) : Task * Outcome :=
  if String.eqb (type task) "schedule_post" then _schedule_post task
  else if String.eqb (type task) "analyze_performance"
       then _analyze_performance task
  else if String.eqb (type task) "engage_audience"
       then _engage_audience task
  else if String.eqb (type task) "track_mentions"
       then _track_mentions task
  else if String.eqb (type task) "generate_report"
       then _generate_report task
  else
    (set_error (Some ("Unsupported task type: " ++ type task)) task,
     Return RetSelf).

(** [SocialMediaManagerAgent(config)] *)
Definition SocialMediaManagerAgent (w : World) : BaseAgent * World :=
  new_agent "social_media_manager" social_media_capabilities
            social_media_execute w.
End SocialMediaManager.






(** *** Script sections of the content creator *)

(** A section: the dictionary with the keys ['timestamp'] and
    ['content']. *)
Record ScriptSection : Type := mkSection {
  timestamp : string;
  content : string
}.

(** [']' in line] *)
Definition has_closing_bracket (line : string) : bool :=
  existsb (Ascii.eqb "]"%char) (list_ascii_of_string line).

(** [line.startswith('[') and ']' in line] *)
Definition opens_section (line : string) : bool :=
  String.prefix "[" line && has_closing_bracket line.

(** [if current_section: sections.append(current_section)] *)
Definition flush (sections : list ScriptSection)
                 (current_section : option ScriptSection)
  : list ScriptSection :=
  match current_section with
  | Some c => (sections ++ [c])%list
  | None => sections
  end.

Section ScriptSections.
(** [str.strip] and [str.split] on the newline, from the Python standard
    library. *)
Variable strip : string -> string.
Variable split_lines : string -> list string.

(** The [for line in lines] loop and the statement after it. *)
Fixpoint collect_sections (lines : list string)
         (sections : list ScriptSection)
         (current_section : option ScriptSection) : list ScriptSection :=
  match lines with
  | [] => flush sections current_section
  | raw :: rest =>
      let line := strip raw in
      if opens_section line then
        collect_sections rest (flush sections current_section)
                         (Some (mkSection line ""))
      else
        match current_section with
        | Some c =>
            if negb (String.eqb line "") then
              collect_sections rest sections
                (Some (mkSection (timestamp c) (content c ++ line ++ " ")))
            else collect_sections rest sections current_section
        | None => collect_sections rest sections None
        end
  end.

Definition _parse_script_sections (script : string) : list ScriptSection :=
  collect_sections (split_lines script) [] None.
End ScriptSections.

(** *** Keyword density of the content creator *)

Section KeywordDensity.
(** [str.lower], [str.split] on white space and [str.count], from the
    Python standard library. *)
Variable lower : string -> string.
Variable split_words : string -> list string.
Variable count_of : string -> string -> nat.

(** The entries are exact quotients; Python rounds them to floats. *)
Definition _calculate_keyword_density (text : string) (keywords : list string)
  : list (string * Q) :=
  let words := split_words (lower text) in
  let total_words := List.length words in
  fold_left
    (fun density keyword =>
       let keyword_count := count_of (lower text) (lower keyword) in
       dict_set density keyword (percentage keyword_count total_words))
    keywords [].
End KeywordDensity.

(** *** SEO recommendations of the content creator *)

Section Recommendations.
(** [str.lower], [str.split] on white space and the substring test [in],
    from Python. *)
Variable lower : string -> string.
Variable split_words : string -> list string.
Variable is_in : string -> string -> bool.

Definition length_advice : string :=
  "Consider increasing content length for better SEO".

Definition _generate_seo_recommendations (text : string)
                                         (keywords : list string)
  : list string :=
  let recommendations :=
    if (List.length (split_words text) <? 300)%nat then [length_advice]
    else [] in
  fold_left
    (fun recommendations keyword =>
       if negb (is_in (lower keyword) (lower text))
       then (recommendations ++ [("Add keyword: " ++ keyword)%string])%list
       else recommendations)
    keywords recommendations.
End Recommendations.

(** ** States of a running system *)

(** What holds of the queue and of the ledgers between two operations:
    every key of the registry is the name of its agent; a queued task is
    pending and its agent is registered; the completed ledger holds
    completed tasks and the failed ledger failed ones; and no task
    object occurs twice over the ledgers and the queue. *)
Record consistent (w : World) : Prop := mkConsistent {
  keys_are_names :
    Forall (fun kv => fst kv = name (snd kv)) (agents w);
  queue_ok :
    Forall (fun e => get_agent w (fst e) <> None
                     /\ option_map status (deref w (snd e)) = Some pending)
           (task_queue w);
  completed_ok :
    Forall (fun r => option_map status (deref w r) = Some completed)
           (completed_tasks w);
  failed_ok :
    Forall (fun r => option_map status (deref w r) = Some failed)
           (failed_tasks w);
  refs_distinct :
    NoDup (completed_tasks w ++ failed_tasks w ++ map snd (task_queue w))
}.

(** The states a new orchestrator gets into by its own operations. *)
Inductive reachable (now : nat -> datetime) (uuid4 : nat -> string)
  : World -> Prop :=
| reach_init : reachable now uuid4 init_world
| reach_new_agent n caps exec w :
    reachable now uuid4 w ->
    reachable now uuid4 (snd (new_agent n caps exec w))
| reach_register a w :
    reachable now uuid4 w -> reachable now uuid4 (register_agent a w)
| reach_submit task_type p agent_name w :
    reachable now uuid4 w ->
    reachable now uuid4 (snd (submit_task now uuid4 task_type p agent_name w))
| reach_process_tasks w :
    reachable now uuid4 w -> reachable now uuid4 (process_tasks w)
| reach_stop w :
    reachable now uuid4 w -> reachable now uuid4 (stop w)
| reach_worker w :
    reachable now uuid4 w -> reachable now uuid4 (worker_iteration now w).

(** ["w1"] with a task submitted by name and no pump loop started. *)
Definition world_w1_idle : World :=
  snd (submit_task demo_now demo_uuid4 "echo" hi_payload (Some "w1") world_w1).

(** Three tasks queued on [world_w1_w2]. *)
Definition world_three_queued : World :=
  let w := world_echo_queued in
  let w := snd (submit_task demo_now demo_uuid4 "fail" (PyDict []) None w) in
  snd (submit_task demo_now demo_uuid4 "echo" hi_payload (Some "w1") w).

(** A script with two timestamp lines; lines are taken apart at ["|"] and
    stripping takes nothing away. *)
Definition demo_strip (s : string) : string := s.

Fixpoint split_at (c : ascii) (s : string) : list string :=
  match s with
  | EmptyString => [EmptyString]
  | String x s' =>
      if Ascii.eqb x c then EmptyString :: split_at c s'
      else match split_at c s' with
           | [] => [String x EmptyString]
           | first :: more => String x first :: more
           end
  end.

Definition demo_split (s : string) : list string := split_at "|"%char s.

(** * Properties *)

(** ** Dictionaries and the object store *)

Lemma flat_map_agree {A B : Type} (f g : A -> list B) (l : list A) :
  (forall x, In x l -> f x = g x) -> flat_map f l = flat_map g l.
Proof.
  induction l as [|x l IH]; cbn; [reflexivity|].
  intros H. rewrite (H x), IH by auto. reflexivity.
Qed.

Section DictFacts.
Context {V : Type}.
Implicit Types d : list (string * V).

Lemma dict_get_set d k v n :
  dict_get (dict_set d k v) n
  = if String.eqb k n then Some v else dict_get d n.
Proof.
  induction d as [|[k' v'] d IH]; cbn; [reflexivity|].
  destruct (String.eqb_spec k' k) as [->|Hk]; cbn.
  - destruct (String.eqb k n); reflexivity.
  - rewrite IH. destruct (String.eqb_spec k' n) as [->|Hn]; [|reflexivity].
    destruct (String.eqb_spec k n); congruence.
Qed.

Lemma dict_keys_set d k v :
  dict_keys (dict_set d k v)
  = if existsb (String.eqb k) (dict_keys d) then dict_keys d
    else (dict_keys d ++ [k])%list.
Proof.
  induction d as [|[k' v'] d IH]; cbn; [reflexivity|].
  rewrite (String.eqb_sym k k').
  destruct (String.eqb k' k); cbn; [reflexivity|].
  unfold dict_keys in *. rewrite IH.
  destruct (existsb _ _); reflexivity.
Qed.

Lemma dict_get_not_key d k :
  ~ In k (dict_keys d) -> dict_get d k = None.
Proof.
  induction d as [|[k' v'] d IH]; cbn; [reflexivity|].
  intros H. destruct (String.eqb_spec k' k); [tauto|]. apply IH. tauto.
Qed.

(** The values of a dictionary, read off key by key. *)
Lemma dict_values_by_keys d :
  NoDup (dict_keys d) ->
  dict_values d
  = flat_map (fun n => option_list (dict_get d n)) (dict_keys d).
Proof.
  induction d as [|[k v] d IH]; cbn; [reflexivity|].
  intros H. inversion H as [|? ? Hk Hd]; subst.
  rewrite String.eqb_refl. cbn. f_equal.
  unfold dict_values, dict_keys in *. rewrite (IH Hd).
  apply flat_map_agree. intros n Hn.
  destruct (String.eqb_spec k n); [subst; tauto | reflexivity].
Qed.
End DictFacts.

Lemma nth_update_nth {A : Type} (l : list A) n x d :
  (n < List.length l)%nat -> nth n (update_nth n x l) d = x.
Proof.
  revert n. induction l as [|z l IH]; intros [|n] H; cbn in *;
    try lia; [reflexivity | apply IH; lia].
Qed.

(** ** The task entity *)

Lemma set_status_status s t : status (set_status s t) = s.
Proof. reflexivity. Qed.

(** C10: [to_dict] never raises, whether or not [started_at] and
    [completed_at] are set; it returns the nine fields, [created_at] as an
    ISO string, and [started_at] / [completed_at] as ISO strings when set
    and as [None] when unset. *)
Theorem to_dict_total (isoformat : datetime -> string) (t : Task) :
  exists d,
    to_dict isoformat t = Ok d
    /\ dict_keys d = [ "id"; "type"; "payload"; "status"; "result"; "error";
                       "created_at"; "started_at"; "completed_at" ]
    /\ dict_get d "id" = Some (PyStr (id t))
    /\ dict_get d "type" = Some (PyStr (type t))
    /\ dict_get d "payload" = Some (payload t)
    /\ dict_get d "status" = Some (PyStr (status t))
    /\ dict_get d "result" = Some (result t)
    /\ dict_get d "error" = Some (py_of_error (error t))
    /\ dict_get d "created_at" = Some (PyStr (isoformat (created_at t)))
    /\ dict_get d "started_at"
       = Some (match started_at t with
               | Some x => PyStr (isoformat x)
               | None => PyNone
               end)
    /\ dict_get d "completed_at"
       = Some (match completed_at t with
               | Some x => PyStr (isoformat x)
               | None => PyNone
               end).
Proof.
  unfold to_dict, isoformat_if_set, call_isoformat.
  destruct (started_at t) as [s|], (completed_at t) as [c|];
    eexists; (split; [reflexivity|]); repeat split.
Qed.

(** ** The driver [process_task] *)

Section Driver.
Variable now : nat -> datetime.

(** The trace ends in the task that [process_task] returns. *)
Lemma process_task_trace_last a k t :
  last (process_task_trace now a k t) t = fst (process_task now a k t).
Proof.
  unfold process_task_trace, process_task, validate_task.
  destruct (negb (can_handle a (type t))); [reflexivity|].
  cbn [negb].
  destruct (execute a _) as [t3 [r|msg]]; reflexivity.
Qed.

(** The trace starts with the task as it was handed in. *)
Lemma process_task_trace_head a k t :
  hd_error (process_task_trace now a k t) = Some t.
Proof.
  unfold process_task_trace.
  destruct (negb (can_handle a (type t))); [reflexivity|].
  destruct (execute a _) as [t3 [r|msg]]; reflexivity.
Qed.

(** On a capability mismatch the driver touches [error] and [status]
    only. *)
Lemma process_task_mismatch a k t :
  can_handle a (type t) = false ->
  process_task now a k t
  = (set_status failed (set_error (Some (mismatch_message a t)) t), k).
Proof.
  intros H. unfold process_task, validate_task. rewrite H. reflexivity.
Qed.

(** When [execute] raises, the driver records the failure. *)
Lemma process_task_raise a k t t' msg :
  can_handle a (type t) = true ->
  execute a (set_started_at (Some (now k)) (set_status running t))
  = (t', Raise msg) ->
  process_task now a k t
  = (set_completed_at (Some (now (S k)))
       (set_error (Some msg) (set_status failed t')), S (S k)).
Proof.
  intros H E. unfold process_task, validate_task. rewrite H. cbn [negb].
  rewrite E. reflexivity.
Qed.

(** When [execute] returns, the driver records the success. *)
Lemma process_task_return a k t t' r :
  can_handle a (type t) = true ->
  execute a (set_started_at (Some (now k)) (set_status running t))
  = (t', Return r) ->
  process_task now a k t
  = (set_result (returned_result r t')
       (set_completed_at (Some (now (S k))) (set_status completed t')),
     S (S k)).
Proof.
  intros H E. unfold process_task, validate_task. rewrite H. cbn [negb].
  rewrite E. destruct r; reflexivity.
Qed.

(** The status a task is returned with is [completed] or [failed]. *)
Lemma process_task_terminal a k t :
  status (fst (process_task now a k t)) = completed
  \/ status (fst (process_task now a k t)) = failed.
Proof.
  unfold process_task, validate_task.
  destruct (can_handle a (type t)); cbn [negb]; [|right; reflexivity].
  destruct (execute a _) as [t3 [r|msg]]; [left|right]; reflexivity.
Qed.

(** C1: a pending task driven by [process_task], whose [execute] leaves
    [status] to the driver, goes pending, running, completed or pending,
    running, failed, and on a capability mismatch pending, failed without
    running; it never shows pending or running again once it left it. *)
Theorem process_task_status_path a k t :
  status t = pending ->
  keeps_status a ->
  let path := status_path now a k t in
  ((can_handle a (type t) = false /\ visited path = [pending; failed])
   \/ (can_handle a (type t) = true
       /\ (visited path = [pending; running; completed]
           \/ visited path = [pending; running; failed])))
  /\ never_returns_to pending path = true
  /\ never_returns_to running path = true.
Proof.
  intros Hp Hk. unfold status_path, process_task_trace.
  destruct (can_handle a (type t)) eqn:Hc; cbn [negb].
  - pose proof (Hk (set_started_at (Some (now k)) (set_status running t)))
      as Hs.
    destruct (execute a _) as [t3 [r|msg]]; cbn [fst] in Hs;
      cbn [map status set_status set_error set_result set_started_at
           set_completed_at];
      rewrite Hs, Hp; (split; [right; split; [reflexivity|]|]);
      [left; reflexivity| split; reflexivity
      |right; reflexivity| split; reflexivity].
  - cbn [map status set_status set_error]. rewrite Hp.
    split; [left; split; reflexivity | split; reflexivity].
Qed.
End Driver.

Lemma echo_keeps_status n caps tbl : keeps_status (mkAgent n caps tbl echo_execute).
Proof. intros t. reflexivity. Qed.

(** The path of an echo task. *)
Lemma process_task_status_path_witness :
  let a := mkAgent "w1" ["echo"] 0 echo_execute in
  let t := new_task "task-0" 1000%Z "echo" hi_payload in
  status t = pending
  /\ keeps_status a
  /\ ((can_handle a (type t) = false
       /\ visited (status_path demo_now a 1 t) = [pending; failed])
      \/ (can_handle a (type t) = true
          /\ (visited (status_path demo_now a 1 t)
              = [pending; running; completed]
              \/ visited (status_path demo_now a 1 t)
                 = [pending; running; failed])))
  /\ never_returns_to pending (status_path demo_now a 1 t) = true
  /\ never_returns_to running (status_path demo_now a 1 t) = true.
Proof.
  intros a t.
  split; [reflexivity|].
  split; [apply echo_keeps_status|].
  exact (process_task_status_path demo_now a 1 t eq_refl
           (echo_keeps_status "w1" ["echo"] 0)).
Defined.

(** *** Results, errors and timestamps *)

Section Outcome.
Variable now : nat -> datetime.

(** A failed task carries an error message, on both failure paths. *)
Lemma process_task_failed_has_error a k t :
  status (fst (process_task now a k t)) = failed ->
  error (fst (process_task now a k t)) <> None.
Proof.
  unfold process_task, validate_task.
  destruct (can_handle a (type t)); cbn [negb]; [|discriminate].
  destruct (execute a _) as [t3 [r|msg]]; cbn; discriminate.
Qed.

(** With a clock that does not run backwards and an [execute] that
    leaves the timestamps to the driver, a task that passes the
    capability check ends with
    [created_at <= started_at <= completed_at]. *)
Lemma process_task_timestamps_ordered a k t :
  (forall i j, (i <= j)%nat -> (now i <= now j)%Z) ->
  (forall u, started_at (fst (execute a u)) = started_at u
             /\ created_at (fst (execute a u)) = created_at u) ->
  (created_at t <= now k)%Z ->
  can_handle a (type t) = true ->
  let t' := fst (process_task now a k t) in
  exists s c,
    started_at t' = Some s /\ completed_at t' = Some c
    /\ (created_at t' <= s <= c)%Z.
Proof.
  intros Hmono Hexec Hc Hcan. unfold process_task, validate_task.
  rewrite Hcan. cbn [negb].
  destruct (Hexec (set_started_at (Some (now k)) (set_status running t)))
    as [Hs Hcr].
  destruct (execute a _) as [t3 [r|msg]]; cbn [fst] in *;
    exists (now k), (now (S k)); cbn; rewrite Hs, Hcr; cbn;
    (split; [reflexivity|]); (split; [reflexivity|]);
    (split; [exact Hc | apply Hmono; lia]).
Qed.
End Outcome.

(** C2, at the content creator: a task of type ["email_newsletter"], which
    the agent lists among its capabilities, is returned by [process_task]
    with status [completed], no result, and the error message that
    [execute] assigned. *)
Theorem content_creator_completed_with_error
    (h1 h2 h3 h4 : Task -> Task * Outcome)
    (now : nat -> datetime) (k : nat) (uid : string) (c : datetime)
    (p : pyval) :
  let agent := fst (ContentCreatorAgent h1 h2 h3 h4 init_world) in
  let t' := fst (process_task now agent k
                   (new_task uid c "email_newsletter" p)) in
  can_handle agent "email_newsletter" = true
  /\ status t' = completed
  /\ result t' = PyNone
  /\ error t' = Some "Unsupported task type: email_newsletter".
Proof. repeat split. Qed.

(** The same through the orchestrator: the task is entered in the
    completed ledger. *)
Example content_creator_newsletter_run :
  let w := snd (submit_task demo_now demo_uuid4 "email_newsletter" hi_payload
                  (Some "content_creator") world_content) in
  let w' := worker_iteration demo_now w in
  completed_tasks w' = [0%nat]
  /\ failed_tasks w' = []
  /\ option_map status (deref w' 0) = Some completed
  /\ option_map result (deref w' 0) = Some PyNone
  /\ option_map error (deref w' 0)
     = Some (Some "Unsupported task type: email_newsletter").
Proof. repeat split. Qed.

(** C3, at a capability mismatch: a task accepted by ["w1"] is driven,
    after the name ["w1"] was registered again, by a worker that cannot
    handle it; it ends [failed], in the failed ledger, with neither
    [started_at] nor [completed_at] set. *)
Theorem mismatch_leaves_completed_at_unset :
  let w' := worker_iteration demo_now world_reregistered in
  option_map status (deref w' 0) = Some failed
  /\ option_map started_at (deref w' 0) = Some None
  /\ option_map completed_at (deref w' 0) = Some None
  /\ failed_tasks w' = [0%nat]
  /\ task_queue w' = [].
Proof. repeat split. Qed.

(** The failure recorded when [execute] raises does set [completed_at]. *)
Example raise_sets_completed_at :
  let w := snd (submit_task demo_now demo_uuid4 "fail" (PyDict []) None
                  world_w1_w2) in
  let w' := worker_iteration demo_now w in
  option_map status (deref w' 0) = Some failed
  /\ option_map completed_at (deref w' 0) = Some (Some 1002%Z).
Proof. repeat split. Qed.

(** ** The pump loop *)

Lemma nth_error_update_nth {A : Type} (l : list A) n x y :
  nth_error l n = Some y -> nth_error (update_nth n x l) n = Some x.
Proof.
  revert n. induction l as [|z l IH]; intros [|n] H; cbn in *;
    try discriminate; auto.
Qed.

Lemma length_update_nth {A : Type} (l : list A) n x :
  List.length (update_nth n x l) = List.length l.
Proof.
  revert n. induction l as [|z l IH]; intros [|n]; cbn; auto.
Qed.

Section Pump.
Variable now : nat -> datetime.

(** One more pass of a running pump loop. *)
Lemma _worker_step n w :
  _is_running w = true ->
  _worker now (S n) w = _worker now n (worker_iteration now w).
Proof. intros H. cbn. rewrite H. reflexivity. Qed.

(** No pass changes the running flag or the registry. *)
Lemma worker_iteration_keeps w :
  _is_running (worker_iteration now w) = _is_running w
  /\ agents (worker_iteration now w) = agents w
  /\ tables (worker_iteration now w) = tables w.
Proof.
  unfold worker_iteration.
  destruct (task_queue w) as [|[an task] rest]; [auto|].
  destruct (get_agent _ an) as [agent|]; [|auto].
  destruct (deref _ task) as [t|]; [|auto].
  destruct (process_task now agent _ t) as [t' k].
  destruct (String.eqb (status t') completed); auto.
Qed.

(** C4: when the [execute] of the worker a queued task belongs to
    raises on a task it can handle, the pass of the pump loop leaves the
    task [failed] with the exception's message as [error], appends it to
    the failed ledger and not to the completed one, and the loop goes on
    with the rest of the queue. *)
Theorem worker_records_execution_failure
    w agent_name task rest agent t t' msg :
  task_queue w = (agent_name, task) :: rest ->
  get_agent w agent_name = Some agent ->
  deref w task = Some t ->
  can_handle agent (type t) = true ->
  execute agent
    (set_started_at (Some (now (clock_reads w))) (set_status running t))
  = (t', Raise msg) ->
  let w' := worker_iteration now w in
  fst (process_task now agent (clock_reads w) t)
  = set_completed_at (Some (now (S (clock_reads w))))
      (set_error (Some msg) (set_status failed t'))
  /\ deref w' task = Some (fst (process_task now agent (clock_reads w) t))
  /\ option_map status (deref w' task) = Some failed
  /\ option_map error (deref w' task) = Some (Some msg)
  /\ failed_tasks w' = (failed_tasks w ++ [task])%list
  /\ completed_tasks w' = completed_tasks w
  /\ task_queue w' = rest
  /\ _is_running w' = _is_running w
  /\ (forall n, _is_running w = true ->
                _worker now (S n) w = _worker now n w').
Proof.
  intros Hq Ha Ht Hc He w'.
  pose proof (process_task_raise now agent (clock_reads w) t t' msg Hc He)
    as Hp.
  assert (Hw : w' = with_failed_tasks (failed_tasks w ++ [task])%list
                 (with_objects
                    (update_nth task
                       (set_completed_at (Some (now (S (clock_reads w))))
                          (set_error (Some msg) (set_status failed t')))
                       (objects w))
                    (with_clock_reads (S (S (clock_reads w)))
                       (with_task_queue rest w)))).
  { subst w'. unfold worker_iteration. rewrite Hq.
    unfold get_agent in *. cbn [agents with_task_queue]. rewrite Ha.
    unfold deref in *. cbn [objects with_task_queue]. rewrite Ht.
    cbn [clock_reads with_task_queue]. rewrite Hp. reflexivity. }
  assert (Hd : deref w' task
               = Some (set_completed_at (Some (now (S (clock_reads w))))
                         (set_error (Some msg) (set_status failed t')))).
  { rewrite Hw. unfold deref in *. cbn.
    eapply nth_error_update_nth; eassumption. }
  rewrite Hp. cbn [fst]. rewrite Hd.
  split; [reflexivity|]. split; [reflexivity|].
  split; [reflexivity|]. split; [reflexivity|].
  rewrite Hw. cbn.
  repeat split.
  intros n Hr. rewrite <- Hw. apply _worker_step; assumption.
Qed.
End Pump.

(** The pass of the pump loop over a task of the worker that raises
    ["boom"]. *)
Lemma worker_records_execution_failure_witness :
  let w := world_fail_queued in
  let agent := mkAgent "w2" ["fail"] 1 boom_execute in
  let t := new_task "task-0" 1000%Z "fail" (PyDict []) in
  let t' := set_started_at (Some 1001%Z) (set_status running t) in
  let w' := worker_iteration demo_now w in
  task_queue w = [("w2", 0%nat)]
  /\ get_agent w "w2" = Some agent
  /\ deref w 0 = Some t
  /\ can_handle agent (type t) = true
  /\ option_map status (deref w' 0) = Some failed
  /\ option_map error (deref w' 0) = Some (Some "boom")
  /\ failed_tasks w' = [0%nat]
  /\ completed_tasks w' = []
  /\ task_queue w' = [].
Proof.
  intros w agent t t' w'.
  destruct (worker_records_execution_failure demo_now w "w2" 0 [] agent t t'
              "boom" eq_refl eq_refl eq_refl eq_refl eq_refl)
    as (_ & _ & Hs & He & Hf & Hc & Hq & _).
  do 4 (split; [reflexivity|]).
  split; [exact Hs|]. split; [exact He|]. split; [exact Hf|].
  split; [exact Hc | exact Hq].
Defined.

(** ** Routing *)

Lemma find_none_existsb {A : Type} (f : A -> bool) (l : list A) :
  find f l = None <-> existsb f l = false.
Proof.
  induction l as [|x l IH]; cbn; [tauto|].
  destruct (f x); cbn; [split; discriminate | exact IH].
Qed.

Section Routing.
Variable now : nat -> datetime.
Variable uuid4 : nat -> string.



(** The task object [create_task] allocates. *)
Lemma create_task_deref a kind p w :
  deref (snd (create_task now uuid4 a kind p w)) (List.length (objects w))
  = Some (new_task (uuid4 (uuid_draws w)) (now (clock_reads w)) kind p).
Proof.
  unfold create_task, deref. cbn.
  rewrite nth_error_app2, Nat.sub_diag by lia. reflexivity.
Qed.

End Routing.


(** ** The registry *)


Lemma existsb_eqb_In (x : string) (l : list string) :
  existsb (String.eqb x) l = true <-> In x l.
Proof.
  rewrite existsb_exists. split.
  - intros [y [Hy E]]. apply String.eqb_eq in E. subst. exact Hy.
  - intros H. exists x. split; [exact H | apply String.eqb_refl].
Qed.

Lemma registry_snoc regs a :
  registry (regs ++ [a]) = register_agent a (registry regs).
Proof. unfold registry. rewrite fold_left_app. reflexivity. Qed.

Lemma first_names_snoc regs a :
  first_names (regs ++ [a])
  = if existsb (String.eqb (name a)) (first_names regs) then first_names regs
    else (first_names regs ++ [name a])%list.
Proof. unfold first_names. rewrite fold_left_app. reflexivity. Qed.

Lemma last_registered_snoc regs a n :
  last_registered (regs ++ [a]) n
  = if String.eqb (name a) n then Some a else last_registered regs n.
Proof. unfold last_registered. rewrite rev_app_distr. reflexivity. Qed.

(** The keys of the registry are the names in the order of their first
    registration. *)
Lemma registry_keys regs :
  dict_keys (agents (registry regs)) = first_names regs.
Proof.
  induction regs as [|a regs IH] using rev_ind; [reflexivity|].
  rewrite registry_snoc, first_names_snoc.
  unfold register_agent. cbn [agents with_agents].
  rewrite dict_keys_set, IH. reflexivity.
Qed.

(** Under each name the registry holds the agent registered last. *)
Lemma registry_get regs n :
  dict_get (agents (registry regs)) n = last_registered regs n.
Proof.
  induction regs as [|a regs IH] using rev_ind; [reflexivity|].
  rewrite registry_snoc, last_registered_snoc.
  unfold register_agent. cbn [agents with_agents].
  rewrite dict_get_set, IH. reflexivity.
Qed.

Lemma first_names_NoDup regs : NoDup (first_names regs).
Proof.
  induction regs as [|a regs IH] using rev_ind; [constructor|].
  rewrite first_names_snoc.
  destruct (existsb _ _) eqn:E; [exact IH|].
  apply NoDup_app; [exact IH | repeat constructor; cbn; tauto |].
  intros x Hx [<-|[]].
  apply existsb_eqb_In in Hx. congruence.
Qed.

(** The registry iterates its agents by the position of their name. *)
Lemma registry_values regs :
  dict_values (agents (registry regs)) = slot_order regs.
Proof.
  rewrite dict_values_by_keys
    by (rewrite registry_keys; apply first_names_NoDup).
  rewrite registry_keys. unfold slot_order.
  apply flat_map_ext. intros n. rewrite registry_get. reflexivity.
Qed.

(** C9, as the code has it: [find_agent_for_task] returns the first agent
    that can handle the type in the order in which the names were first
    registered, an agent registered under a name already in use standing
    where the one it replaced stood; it returns [None] exactly when no
    registered agent can handle the type, and an agent it returns can
    handle it. *)
Theorem find_agent_for_task_first_match regs kind :
  let found := find_agent_for_task (registry regs) kind in
  found = find (fun a => can_handle a kind) (slot_order regs)
  /\ (found = None
      <-> forall a, In a (slot_order regs) -> can_handle a kind = false)
  /\ (forall a, found = Some a ->
        can_handle a kind = true /\ In a (slot_order regs)).
Proof.
  intros found. subst found. unfold find_agent_for_task.
  rewrite registry_values. split; [reflexivity|]. split.
  - split.
    + intros H a Ha. exact (find_none _ _ H a Ha).
    + intros H. apply find_none_existsb.
      destruct (existsb _ _) eqn:E; [|reflexivity].
      apply existsb_exists in E. destruct E as [a [Ha E]].
      rewrite (H a Ha) in E. discriminate.
  - intros a H. apply find_some in H. tauto.
Qed.

(** Without a name registered twice, the position of a name is the
    position of its registration. *)
Lemma in_force_fresh later a :
  ~ In (name a) (map name later) -> in_force later a = true.
Proof.
  intros H. unfold in_force. destruct (existsb _ later) eqn:E; [|reflexivity].
  apply existsb_exists in E. destruct E as [b [Hb E]].
  apply String.eqb_eq in E. exfalso. apply H. rewrite <- E.
  apply in_map. exact Hb.
Qed.

Lemma registration_order_NoDup regs :
  NoDup (map name regs) -> registration_order regs = regs.
Proof.
  induction regs as [|a regs IH]; cbn; [reflexivity|].
  intros H. inversion H as [|? ? Ha Hr]; subst.
  rewrite in_force_fresh by exact Ha. f_equal. apply IH. exact Hr.
Qed.

Lemma first_names_NoDup_names regs :
  NoDup (map name regs) -> first_names regs = map name regs.
Proof.
  induction regs as [|a regs IH] using rev_ind; [reflexivity|].
  rewrite map_app. cbn. intros H.
  apply NoDup_app_remove_r in H as Hr.
  rewrite first_names_snoc, (IH Hr).
  destruct (existsb _ _) eqn:E; [|reflexivity].
  apply existsb_eqb_In in E. exfalso.
  apply NoDup_remove_2 in H. rewrite app_nil_r in H. tauto.
Qed.

Lemma slot_order_NoDup regs :
  NoDup (map name regs) -> slot_order regs = regs.
Proof.
  induction regs as [|a regs IH] using rev_ind; [reflexivity|].
  intros H. pose proof H as H'. rewrite map_app in H'. cbn in H'.
  pose proof (NoDup_app_remove_r _ _ H') as Hr.
  pose proof (NoDup_remove_2 _ _ _ H') as Ha. rewrite app_nil_r in Ha.
  unfold slot_order. rewrite (first_names_NoDup_names _ H).
  rewrite map_app, flat_map_app. cbn.
  rewrite last_registered_snoc, String.eqb_refl. cbn. f_equal.
  rewrite <- (IH Hr) at 2. unfold slot_order.
  rewrite (first_names_NoDup_names _ Hr).
  apply flat_map_agree. intros n Hn. rewrite last_registered_snoc.
  destruct (String.eqb_spec (name a) n); [subst; tauto | reflexivity].
Qed.

(** With pairwise distinct names, [find_agent_for_task] returns the first
    capable worker in registration order. *)
Lemma find_agent_for_task_distinct_names regs kind :
  NoDup (map name regs) ->
  find_agent_for_task (registry regs) kind
  = first_in_registration_order regs kind.
Proof.
  intros H. unfold find_agent_for_task, first_in_registration_order.
  rewrite registry_values, slot_order_NoDup, registration_order_NoDup
    by exact H.
  reflexivity.
Qed.

(** C9 fails when a name is registered twice: after ["w1"] for ["a"], ["w2"]
    for ["b"] and ["w1"] again for ["b"], the first registered worker that
    can handle ["b"] is ["w2"], and [find_agent_for_task] returns the second
    ["w1"]. *)
Lemma find_agent_for_task_not_registration_order :
  find_agent_for_task (registry history_w1_twice) "b"
  <> first_in_registration_order history_w1_twice "b".
Proof.
  intros H. apply (f_equal (option_map name)) in H. discriminate H.
Qed.

(** ** Metrics *)

(** C7, as the code has it: [total_tasks_processed] is the sum of the two
    ledger lengths, [queue_size] the length of the queue, and
    [success_rate] one hundred times the ratio of completed to terminal
    tasks, and 0 when there is no terminal task. *)
Theorem get_system_status_metrics w :
  let s := get_system_status w in
  total_tasks_processed s
  = (List.length (completed_tasks w) + List.length (failed_tasks w))%nat
  /\ queue_size s = List.length (task_queue w)
  /\ is_running s = _is_running w
  /\ (success_rate s == ratio_success_rate w * 100)%Q
  /\ (total_tasks_processed s = 0%nat -> success_rate s = 0%Q).
Proof.
  cbn. unfold percentage, ratio_success_rate.
  repeat (split; [reflexivity|]).
  destruct (List.length (completed_tasks w) + List.length (failed_tasks w))%nat
    as [|n] eqn:E; cbn [Nat.ltb Nat.leb Nat.eqb].
  - split; [reflexivity | reflexivity].
  - split; [reflexivity | discriminate].
Qed.

(** C7 fails on the scale: with one completed and no failed task the
    reported rate is 100, not 1. *)
Lemma success_rate_is_percentage :
  ~ (success_rate (get_system_status world_echo_done)
     == ratio_success_rate world_echo_done)%Q.
Proof. intros H. vm_compute in H. discriminate H. Qed.

(** ** The workflow runner *)

Section Runner.
Variable now : nat -> datetime.
Variable uuid4 : nat -> string.
Variable sched : nat -> nat.

(** A submitted task is pending when [submit_task] returns. *)
Lemma submit_task_pending kind p agent_name w task w1 :
  submit_task now uuid4 kind p agent_name w = (Some task, w1) ->
  exists t, deref w1 task = Some t /\ status t = pending.
Proof.
  unfold submit_task. destruct (route w kind agent_name) as [a|];
    [|discriminate].
  pose proof (create_task_deref now uuid4 a kind p w) as Hd.
  destruct (create_task now uuid4 a kind p w) as [r w0] eqn:E.
  assert (Hr : r = List.length (objects w))
    by (unfold create_task in E; injection E as <- _; reflexivity).
  intros H. injection H as <- <-. cbn [snd] in Hd. rewrite <- Hr in Hd.
  eexists. split; [exact Hd | reflexivity].
Qed.

(** A step without an [agent] entry whose task was submitted: the first
    poll sets the loop variable to [None], and the loop test raises. *)
Lemma poll_without_agent_raises fuel step w n task w1 :
  truthy_name (step_agent step) = None ->
  submit_task now uuid4 (step_type step) (payload_of step)
              (step_agent step) w = (Some task, w1) ->
  wait_for_completion now sched (S (S fuel)) (step_agent step)
                      (Some task) w1 n
  = Error "AttributeError" (during_sleep now sched n w1).
Proof.
  intros Hn Hs. destruct (submit_task_pending _ _ _ _ _ _ Hs) as (t & Hd & Hp).
  cbn [wait_for_completion]. rewrite Hd, Hp, Hn. reflexivity.
Qed.

(** Such a step ends the whole workflow with the exception, whatever
    follows it and whatever was collected before. *)
Lemma workflow_loop_without_agent_raises fuel step rest results w n task w1 :
  truthy_name (step_agent step) = None ->
  submit_task now uuid4 (step_type step) (payload_of step)
              (step_agent step) w = (Some task, w1) ->
  workflow_loop now uuid4 sched (S (S fuel)) (step :: rest) results w n
  = Error "AttributeError" (during_sleep now sched n w1).
Proof.
  intros Hn Hs. cbn [workflow_loop]. rewrite Hs.
  rewrite (poll_without_agent_raises fuel step w n task w1 Hn Hs). reflexivity.
Qed.

(** A step that cannot be routed is skipped. *)
Lemma workflow_skips_unroutable fuel step rest results w n w1 :
  submit_task now uuid4 (step_type step) (payload_of step)
              (step_agent step) w = (None, w1) ->
  workflow_loop now uuid4 sched fuel (step :: rest) results w n
  = workflow_loop now uuid4 sched fuel rest results w1 n.
Proof. intros Hs. cbn [workflow_loop]. rewrite Hs. reflexivity. Qed.

(** The tasks collected so far stay at the front of the result. *)
Lemma workflow_loop_extends fuel workflow :
  forall results w n rs w' n',
    workflow_loop now uuid4 sched fuel workflow results w n = Done rs w' n' ->
    exists more, rs = (results ++ more)%list.
Proof.
  induction workflow as [|step rest IH]; intros results w n rs w' n';
    cbn [workflow_loop].
  - intros H. injection H as <- _ _. exists []. symmetry. apply app_nil_r.
  - destruct (submit_task _ _ _ _ _ w) as [[r|] w1]; [|apply IH].
    destruct (wait_for_completion _ _ _ _ _ w1 n) as [task w2 n2| |];
      [|discriminate|discriminate].
    destruct (stops_workflow w2 task step).
    + intros H. injection H as <- _ _. eexists. reflexivity.
    + intros H. apply IH in H. destruct H as [more ->].
      exists (task :: more). rewrite <- app_assoc. reflexivity.
Qed.

(** The steps that are polled to their end, which are steps that name
    their agent: when the task of the step at hand ends [failed] and the
    step's [continue_on_failure] is false, the runner returns the tasks
    collected so far, that task last, and leaves the remaining steps
    alone; when the flag is absent (or true) it goes on with the
    remaining steps. *)
Theorem workflow_failure_policy
    fuel step rest results w n r w1 task w2 n2 t :
  submit_task now uuid4 (step_type step) (payload_of step)
              (step_agent step) w = (Some r, w1) ->
  wait_for_completion now sched fuel (step_agent step) (Some r) w1 n
  = Done task w2 n2 ->
  deref w2 task = Some t ->
  status t = failed ->
  (continue_on_failure step = Some false ->
     workflow_loop now uuid4 sched fuel (step :: rest) results w n
     = Done (results ++ [task])%list w2 n2)
  /\ (continue_on_failure step = None
      \/ continue_on_failure step = Some true ->
        workflow_loop now uuid4 sched fuel (step :: rest) results w n
        = workflow_loop now uuid4 sched fuel rest (results ++ [task])%list
                        w2 n2).
Proof.
  intros Hs Hw Hd Hf. cbn [workflow_loop]. rewrite Hs, Hw.
  unfold stops_workflow. rewrite Hd, Hf. cbn [String.eqb].
  split.
  - intros ->. reflexivity.
  - intros [-> | ->]; reflexivity.
Qed.

(** A polled step whose task did not end [failed] never stops the run,
    whatever its flag. *)
Lemma workflow_goes_on_after_success
    fuel step rest results w n r w1 task w2 n2 t :
  submit_task now uuid4 (step_type step) (payload_of step)
              (step_agent step) w = (Some r, w1) ->
  wait_for_completion now sched fuel (step_agent step) (Some r) w1 n
  = Done task w2 n2 ->
  deref w2 task = Some t ->
  status t <> failed ->
  workflow_loop now uuid4 sched fuel (step :: rest) results w n
  = workflow_loop now uuid4 sched fuel rest (results ++ [task])%list w2 n2.
Proof.
  intros Hs Hw Hd Hf. cbn [workflow_loop]. rewrite Hs, Hw.
  unfold stops_workflow. rewrite Hd.
  destruct (String.eqb_spec (status t) failed); [congruence | reflexivity].
Qed.
End Runner.

(** C6, for a step routed by capability: the runner submits the task, the
    pump loop completes it during the first sleep, and the runner then
    raises instead of returning the task. *)
Theorem execute_workflow_routed_step_raises :
  let o := execute_workflow demo_now demo_uuid4 demo_sched 10
             [step_echo_routed] world_w1_w2 in
  outcome_exception o = Some "AttributeError"
  /\ outcome_value o = None
  /\ completed_tasks (outcome_world o) = [0%nat]
  /\ option_map status (deref (outcome_world o) 0) = Some completed.
Proof. repeat split. Qed.

(** The same step with the worker named is polled to its end. *)
Example execute_workflow_named_step_returns :
  let o := execute_workflow demo_now demo_uuid4 demo_sched 10
             [step_echo_w1] world_w1_w2 in
  outcome_value o = Some [0%nat]
  /\ option_map status (deref (outcome_world o) 0) = Some completed
  /\ option_map result (deref (outcome_world o) 0)
     = Some (PyDict [("echoed", PyStr "hi")]).
Proof. repeat split. Qed.

(** C8, for a failing step routed by capability with
    [continue_on_failure] false: the task of the step ends [failed] during
    the first sleep, and the runner, instead of returning the tasks
    collected so far, raises; nothing is returned.  The next step is not
    submitted. *)
Theorem execute_workflow_failed_routed_step_raises :
  let o := execute_workflow demo_now demo_uuid4 demo_sched 10
             [step_fail_routed_stop; step_echo_w1] world_w1_w2 in
  continue_on_failure step_fail_routed_stop = Some false
  /\ option_map status (deref (outcome_world o) 0) = Some failed
  /\ failed_tasks (outcome_world o) = [0%nat]
  /\ outcome_exception o = Some "AttributeError"
  /\ outcome_value o = None
  /\ List.length (objects (outcome_world o)) = 1%nat.
Proof. repeat split. Qed.

(** The workflow of three routed steps, echo with the flag false, fail,
    echo: the runner raises at the first step and returns no task. *)
Example execute_workflow_three_routed_steps :
  let o := execute_workflow demo_now demo_uuid4 demo_sched 10
             [step_echo_routed_stop; step_fail_routed; step_echo_routed]
             world_w1_w2 in
  outcome_exception o = Some "AttributeError"
  /\ outcome_value o = None
  /\ List.length (objects (outcome_world o)) = 1%nat.
Proof. repeat split. Qed.

(** A failing first step that names its agent, with [continue_on_failure]
    false: the echo step after it is never submitted. *)
Lemma workflow_failure_policy_witness :
  let w1 := snd (submit_task demo_now demo_uuid4 "fail" (PyDict [])
                   (Some "w2") world_w1_w2) in
  let polled := wait_for_completion demo_now demo_sched 10 (Some "w2")
                  (Some 0%nat) w1 0 in
  let w2 := outcome_world polled in
  option_map status (deref w2 0) = Some failed
  /\ continue_on_failure step_fail_stop = Some false
  /\ workflow_loop demo_now demo_uuid4 demo_sched 10
       [step_fail_stop; step_echo_w1] [] world_w1_w2 0
     = Done [0%nat] w2 1
  /\ List.length (objects w2) = 1%nat.
Proof.
  intros w1 polled w2.
  split; [reflexivity|]. split; [reflexivity|].
  split; [|reflexivity].
  refine (proj1 (workflow_failure_policy demo_now demo_uuid4 demo_sched 10
                   step_fail_stop [step_echo_w1] [] world_w1_w2 0 0 w1 0 w2 1
                   (set_completed_at (Some 1002%Z)
                      (set_error (Some "boom")
                         (set_status failed
                            (set_started_at (Some 1001%Z)
                               (set_status running
                                  (new_task "task-0" 1000%Z "fail"
                                     (PyDict [])))))))
                   eq_refl eq_refl eq_refl eq_refl) eq_refl).
Defined.

(** With the flag absent the runner goes on past the failure. *)
Example workflow_continues_by_default :
  outcome_value (execute_workflow demo_now demo_uuid4 demo_sched 10
                   [step_fail_default; step_echo_w1] world_w1_w2)
  = Some [0%nat; 1%nat].
Proof. reflexivity. Qed.

(** * Further properties *)

(** ** Task tables *)

Lemma nth_update_nth_other {A : Type} (l : list A) n m x d :
  n <> m -> nth m (update_nth n x l) d = nth m l d.
Proof.
  revert n m. induction l as [|z l IH]; intros [|n] [|m] H; cbn;
    try reflexivity; try congruence.
  apply IH. congruence.
Qed.

Lemma nth_error_update_nth_other {A : Type} (l : list A) n m x :
  n <> m -> nth_error (update_nth n x l) m = nth_error l m.
Proof.
  revert n m. induction l as [|z l IH]; intros [|n] [|m] H; cbn;
    try reflexivity; try congruence.
  apply IH. congruence.
Qed.

Lemma deref_Some_lt w r t : deref w r = Some t -> (r < List.length (objects w))%nat.
Proof. intros H. apply nth_error_Some. unfold deref in H. congruence. Qed.

Section Tables.
Variable now : nat -> datetime.
Variable uuid4 : nat -> string.

(** [create_task] then [get_task]: the new task is found under its id in
    the table of the agent that created it; it is pending, with neither
    result nor error nor start or completion time.  The other ids of that
    table, the tables of the other agents and the task objects that
    existed are as before. *)
Theorem create_task_get_task a task_type p w :
  (_tasks a < List.length (tables w))%nat ->
  let r := fst (create_task now uuid4 a task_type p w) in
  let w' := snd (create_task now uuid4 a task_type p w) in
  let uid := uuid4 (uuid_draws w) in
  get_task a uid w' = Some r
  /\ deref w' r = Some (mkTask uid task_type p pending PyNone None
                               (now (clock_reads w)) None None)
  /\ (forall other, other <> uid -> get_task a other w' = get_task a other w)
  /\ (forall b, _tasks b <> _tasks a -> table_of w' b = table_of w b)
  /\ (forall r', (r' < List.length (objects w))%nat ->
                 deref w' r' = deref w r').
Proof.
  intros Hl r w' uid. subst r w' uid.
  unfold create_task, get_task, table_of, deref. cbn.
  split.
  { rewrite nth_update_nth by exact Hl.
    rewrite dict_get_set, String.eqb_refl. reflexivity. }
  split.
  { rewrite nth_error_app2, Nat.sub_diag by lia. reflexivity. }
  split.
  { intros other Ho. rewrite nth_update_nth by exact Hl.
    rewrite dict_get_set.
    destruct (String.eqb_spec (uuid4 (uuid_draws w)) other); congruence. }
  split.
  { intros b Hb. apply nth_update_nth_other. congruence. }
  intros r' Hr. apply nth_error_app1. exact Hr.
Qed.

(** [get_tasks(status)] with a non-empty status lists exactly the tasks of
    the table that have this status, as many as [get_system_status] counts
    for it; with the empty string, as with [None], it lists every task. *)
Theorem get_tasks_with_filter a w :
  get_tasks_with a None w = get_tasks a w
  /\ get_tasks_with a (Some "") w = get_tasks a w
  /\ (forall s, s <> "" ->
        (forall task, In task (get_tasks_with a (Some s) w)
                      <-> In task (get_tasks a w) /\ status task = s)
        /\ List.length (get_tasks_with a (Some s) w)
           = count_status s (get_tasks a w)).
Proof.
  split; [reflexivity|]. split; [reflexivity|].
  intros s Hs. unfold get_tasks_with.
  destruct (String.eqb_spec s ""); [congruence|].
  split; [|reflexivity].
  intros task. rewrite filter_In, String.eqb_eq. reflexivity.
Qed.
End Tables.

(** A new task of the echo worker is found under its id. *)
Lemma create_task_get_task_witness :
  let a := mkAgent "w1" ["echo"] 0 echo_execute in
  let w' := snd (create_task demo_now demo_uuid4 a "echo" hi_payload world_w1) in
  (_tasks a < List.length (tables world_w1))%nat
  /\ get_task a "task-0" w' = Some 0%nat
  /\ deref w' 0 = Some (mkTask "task-0" "echo" hi_payload pending PyNone None
                                1000%Z None None).
Proof.
  intros a w'.
  assert (Hl : (_tasks a < List.length (tables world_w1))%nat) by (cbn; lia).
  destruct (create_task_get_task demo_now demo_uuid4 a "echo" hi_payload
              world_w1 Hl) as (Hg & Hd & _).
  split; [exact Hl|]. split; [exact Hg | exact Hd].
Defined.

(** ** What the driver decides and what it leaves alone *)

Section Verdict.
Variable now : nat -> datetime.

(** [process_task] returns the task [completed] exactly when the agent can
    handle its type and [execute] returns, and [failed] exactly when the
    agent cannot handle it or [execute] raises.  A failed task carries an
    error message, which on a capability mismatch names the agent and the
    type.  The clock is read twice when the task is run and not at all on
    a mismatch, and a task that was run has its completion time. *)
Theorem process_task_verdict a k t :
  let started := set_started_at (Some (now k)) (set_status running t) in
  let r := process_task now a k t in
  (status (fst r) = completed
   <-> can_handle a (type t) = true
       /\ exists v, snd (execute a started) = Return v)
  /\ (status (fst r) = failed
      <-> can_handle a (type t) = false
          \/ exists msg, snd (execute a started) = Raise msg)
  /\ (status (fst r) = failed -> exists e, error (fst r) = Some e)
  /\ (can_handle a (type t) = false ->
        error (fst r)
        = Some ("Agent " ++ name a ++ " cannot handle task type: " ++ type t)
        /\ snd r = k)
  /\ (can_handle a (type t) = true ->
        completed_at (fst r) = Some (now (S k)) /\ snd r = S (S k)).
Proof.
  intros started r. subst started r.
  unfold process_task, validate_task.
  destruct (can_handle a (type t)) eqn:Hc; cbn [negb].
  - destruct (execute a _) as [t3 [v|msg]]; cbn.
    + split; [split; [intros _; split; [reflexivity | eexists; reflexivity]
                     | reflexivity]|].
      split; [split; [discriminate | intros [H|[m H]]; discriminate]|].
      split; [discriminate|]. split; [discriminate|].
      intros _. split; reflexivity.
    + split; [split; [discriminate | intros [_ [v H]]; discriminate]|].
      split; [split; [intros _; right; eexists; reflexivity | reflexivity]|].
      split; [intros _; eexists; reflexivity|]. split; [discriminate|].
      intros _. split; reflexivity.
  - cbn.
    split; [split; [discriminate | intros [H _]; discriminate]|].
    split; [split; [intros _; left; reflexivity | reflexivity]|].
    split; [intros _; eexists; reflexivity|].
    split; [intros _; split; reflexivity | discriminate].
Qed.

(** [process_task] itself assigns to [status], [result], [error],
    [started_at] and [completed_at] only: the id, the type, the payload and
    the creation time it returns are those [execute] left, and on a
    capability mismatch those it was given, together with the result and
    the two other times. *)
Theorem process_task_frame a k t :
  let started := set_started_at (Some (now k)) (set_status running t) in
  let t' := fst (process_task now a k t) in
  let seen := if can_handle a (type t) then fst (execute a started) else t in
  id t' = id seen /\ type t' = type seen /\ payload t' = payload seen
  /\ created_at t' = created_at seen
  /\ (can_handle a (type t) = false ->
        result t' = result t /\ started_at t' = started_at t
        /\ completed_at t' = completed_at t).
Proof.
  intros started t' seen. subst started t' seen.
  unfold process_task, validate_task.
  destruct (can_handle a (type t)) eqn:Hc; cbn [negb].
  - destruct (execute a _) as [t3 [v|msg]]; cbn; repeat split; discriminate.
  - cbn. repeat split.
Qed.
End Verdict.

(** The timestamps of an echo task run on a clock that advances. *)
Lemma process_task_timestamps_ordered_witness :
  let a := mkAgent "w1" ["echo"] 0 echo_execute in
  let t := new_task "task-0" 1000%Z "echo" hi_payload in
  let t' := fst (process_task demo_now a 1 t) in
  (created_at t <= demo_now 1)%Z
  /\ can_handle a (type t) = true
  /\ exists s c,
       started_at t' = Some s /\ completed_at t' = Some c
       /\ (created_at t' <= s <= c)%Z.
Proof.
  intros a t t'.
  assert (Hmono : forall i j, (i <= j)%nat -> (demo_now i <= demo_now j)%Z)
    by (intros i j H; unfold demo_now; lia).
  assert (Hexec : forall u, started_at (fst (execute a u)) = started_at u
                            /\ created_at (fst (execute a u)) = created_at u)
    by (intros u; split; reflexivity).
  assert (Hc : (created_at t <= demo_now 1)%Z) by (cbn; lia).
  split; [exact Hc|]. split; [reflexivity|].
  exact (process_task_timestamps_ordered demo_now a 1 t Hmono Hexec Hc eq_refl).
Defined.

(** ** Registration and lookup *)

Lemma dict_set_length {V : Type} (d : list (string * V)) k v :
  List.length (dict_set d k v)
  = if existsb (String.eqb k) (dict_keys d) then List.length d
    else S (List.length d).
Proof.
  pose proof (dict_keys_set d k v) as H.
  apply (f_equal (@List.length string)) in H.
  unfold dict_keys in H. rewrite length_map in H. rewrite H.
  destruct (existsb _ _); rewrite ?length_app, ?length_map; cbn; lia.
Qed.

(** [register_agent] then [get_agent]: the agent is found under its name,
    replacing an agent registered under that name before; every other
    name resolves as before; the registry grows by one entry only for a
    new name; queue, ledgers, task objects and running flag are
    untouched. *)
Theorem register_agent_get_agent a w :
  get_agent (register_agent a w) (name a) = Some a
  /\ (forall n, n <> name a ->
        get_agent (register_agent a w) n = get_agent w n)
  /\ List.length (agents (register_agent a w))
     = (match get_agent w (name a) with
        | Some _ => List.length (agents w)
        | None => S (List.length (agents w))
        end)
  /\ task_queue (register_agent a w) = task_queue w
  /\ completed_tasks (register_agent a w) = completed_tasks w
  /\ failed_tasks (register_agent a w) = failed_tasks w
  /\ objects (register_agent a w) = objects w
  /\ _is_running (register_agent a w) = _is_running w.
Proof.
  unfold get_agent, register_agent. cbn [agents with_agents].
  split; [rewrite dict_get_set, String.eqb_refl; reflexivity|].
  split.
  { intros n Hn. rewrite dict_get_set.
    destruct (String.eqb_spec (name a) n); congruence. }
  split; [|repeat split].
  rewrite dict_set_length.
  destruct (existsb _ _) eqn:E.
  - apply existsb_eqb_In in E.
    destruct (dict_get (agents w) (name a)) eqn:G; [reflexivity|].
    exfalso. clear - E G. induction (agents w) as [|[k v] d IH]; cbn in *.
    + exact E.
    + destruct (String.eqb_spec k (name a)); [discriminate|].
      destruct E as [E|E]; [congruence | auto].
  - rewrite dict_get_not_key; [reflexivity|].
    intros H. apply existsb_eqb_In in H. congruence.
Qed.

Lemma first_names_length regs :
  (List.length (first_names regs) <= List.length regs)%nat.
Proof.
  induction regs as [|a regs IH] using rev_ind; [cbn; lia|].
  rewrite first_names_snoc, length_app. cbn.
  destruct (existsb _ _); rewrite ?length_app; cbn; lia.
Qed.

(** After any registrations on a new orchestrator no name occurs twice in
    the registry; a name resolves to an agent of that name, in fact to the
    one registered last under it; every registered name resolves; and the
    registry has at most as many entries as there were registrations. *)
Theorem registry_names regs :
  NoDup (dict_keys (agents (registry regs)))
  /\ (forall n a, get_agent (registry regs) n = Some a ->
        name a = n /\ In a regs /\ last_registered regs n = Some a)
  /\ (forall a, In a regs ->
        exists b, get_agent (registry regs) (name a) = Some b
                  /\ name b = name a)
  /\ (List.length (agents (registry regs)) <= List.length regs)%nat.
Proof.
  split; [rewrite registry_keys; apply first_names_NoDup|].
  split.
  { intros n a H. unfold get_agent in H. rewrite registry_get in H.
    pose proof H as H'. unfold last_registered in H.
    apply find_some in H. destruct H as [Hin He].
    apply String.eqb_eq in He. apply in_rev in Hin. auto. }
  split.
  { intros a Ha. unfold get_agent. rewrite registry_get.
    unfold last_registered.
    destruct (find _ (rev regs)) as [b|] eqn:F.
    - exists b. split; [reflexivity|].
      apply find_some in F. apply String.eqb_eq. tauto.
    - exfalso. pose proof (proj1 (in_rev regs a) Ha) as Hr.
      pose proof (find_none _ _ F a Hr) as Hf. cbn in Hf.
      rewrite String.eqb_refl in Hf. discriminate Hf. }
  pose proof (registry_keys regs) as K.
  apply (f_equal (@List.length string)) in K.
  unfold dict_keys in K. rewrite length_map in K. rewrite K.
  apply first_names_length.
Qed.

(** Two workers with different names: the first one registered that can
    handle the type is found. *)
Lemma find_agent_for_task_distinct_names_witness :
  NoDup (map name [w1_knows_a; w2_knows_b])
  /\ find_agent_for_task (registry [w1_knows_a; w2_knows_b]) "b"
     = first_in_registration_order [w1_knows_a; w2_knows_b] "b".
Proof.
  assert (H : NoDup (map name [w1_knows_a; w2_knows_b])).
  { repeat constructor; cbn; intuition discriminate. }
  split; [exact H|].
  exact (find_agent_for_task_distinct_names [w1_knows_a; w2_knows_b] "b" H).
Defined.

(** ** One pass of a pump loop *)

Lemma dict_get_In {V : Type} (d : list (string * V)) k v :
  dict_get d k = Some v -> In (k, v) d.
Proof.
  induction d as [|[k' v'] d IH]; cbn; [discriminate|].
  destruct (String.eqb_spec k' k) as [->|Hk].
  - intros H. injection H as <-. left. reflexivity.
  - intros H. right. apply IH. exact H.
Qed.

Lemma In_dict_get {V : Type} (d : list (string * V)) k v :
  In (k, v) d -> dict_get d k <> None.
Proof.
  induction d as [|[k' v'] d IH]; cbn; [tauto|].
  intros [H|H].
  - injection H as -> ->. rewrite String.eqb_refl. discriminate.
  - destruct (String.eqb k' k); [discriminate | apply IH; exact H].
Qed.

Section Pass.
Variable now : nat -> datetime.

(** The pass over a queue whose head resolves. *)
Lemma worker_iteration_head w n r rest agent t :
  task_queue w = (n, r) :: rest ->
  get_agent w n = Some agent ->
  deref w r = Some t ->
  let t' := fst (process_task now agent (clock_reads w) t) in
  let k := snd (process_task now agent (clock_reads w) t) in
  let base := with_objects (update_nth r t' (objects w))
                (with_clock_reads k (with_task_queue rest w)) in
  worker_iteration now w
  = if String.eqb (status t') completed
    then with_completed_tasks (completed_tasks w ++ [r])%list base
    else with_failed_tasks (failed_tasks w ++ [r])%list base.
Proof.
  intros Hq Ha Ht. unfold worker_iteration. rewrite Hq.
  unfold get_agent, deref in *. cbn [agents objects with_task_queue].
  rewrite Ha, Ht. cbn [clock_reads with_task_queue].
  destruct (process_task now agent (clock_reads w) t) as [t' k].
  reflexivity.
Qed.

(** When the [execute] of the agent a queued task belongs to returns, the
    pass leaves the task [completed] with the returned result and a
    completion time, appends it to the completed ledger and not to the
    failed one, and takes it off the queue. *)
Theorem worker_records_success w agent_name task rest agent t t' v :
  task_queue w = (agent_name, task) :: rest ->
  get_agent w agent_name = Some agent ->
  deref w task = Some t ->
  can_handle agent (type t) = true ->
  execute agent
    (set_started_at (Some (now (clock_reads w))) (set_status running t))
  = (t', Return v) ->
  let w' := worker_iteration now w in
  deref w' task
  = Some (set_result (returned_result v t')
            (set_completed_at (Some (now (S (clock_reads w))))
               (set_status completed t')))
  /\ completed_tasks w' = (completed_tasks w ++ [task])%list
  /\ failed_tasks w' = failed_tasks w
  /\ task_queue w' = rest
  /\ clock_reads w' = S (S (clock_reads w)).
Proof.
  intros Hq Ha Ht Hc He w'. subst w'.
  rewrite (worker_iteration_head w agent_name task rest agent t Hq Ha Ht).
  rewrite (process_task_return now agent (clock_reads w) t t' v Hc He).
  cbn [fst snd status set_result set_completed_at set_status].
  cbn. unfold deref in *. cbn.
  split; [eapply nth_error_update_nth; eassumption | repeat split].
Qed.
End Pass.

(** The pass over an echo task. *)
Lemma worker_records_success_witness :
  let w := world_echo_queued in
  let w' := worker_iteration demo_now w in
  task_queue w = [("w1", 0%nat)]
  /\ option_map status (deref w' 0) = Some completed
  /\ option_map result (deref w' 0) = Some (PyDict [("echoed", PyStr "hi")])
  /\ completed_tasks w' = [0%nat]
  /\ failed_tasks w' = []
  /\ task_queue w' = [].
Proof.
  intros w w'.
  destruct (worker_records_success demo_now w "w1" 0 []
              (mkAgent "w1" ["echo"] 0 echo_execute)
              (new_task "task-0" 1000%Z "echo" hi_payload)
              (set_started_at (Some 1001%Z)
                 (set_status running
                    (new_task "task-0" 1000%Z "echo" hi_payload)))
              (RetValue (PyDict [("echoed", PyStr "hi")]))
              eq_refl eq_refl eq_refl eq_refl eq_refl)
    as (Hd & Hc & Hf & Hq & _).
  split; [reflexivity|].
  fold w' in Hd, Hc, Hf, Hq.
  split; [rewrite Hd; reflexivity|]. split; [rewrite Hd; reflexivity|].
  split; [exact Hc|]. split; [exact Hf | exact Hq].
Defined.

(** ** The queue and the ledgers between operations *)

(** [consistent] looks at the registry, the queue, the ledgers and the
    task objects only. *)
Lemma consistent_same w w' :
  agents w' = agents w -> task_queue w' = task_queue w ->
  completed_tasks w' = completed_tasks w -> failed_tasks w' = failed_tasks w ->
  objects w' = objects w ->
  consistent w -> consistent w'.
Proof.
  intros Ha Hq Hc Hf Ho [K Q C F D].
  constructor; unfold get_agent, deref in *;
    rewrite ?Ha, ?Hq, ?Hc, ?Hf, ?Ho; assumption.
Qed.

Lemma consistent_init : consistent init_world.
Proof. constructor; cbn; constructor. Qed.

Lemma consistent_register a w : consistent w -> consistent (register_agent a w).
Proof.
  intros [K Q C F D].
  constructor; unfold get_agent, deref, register_agent in *;
    cbn [agents task_queue completed_tasks failed_tasks objects with_agents];
    try assumption.
  - clear - K. induction (agents w) as [|[k v] d IH]; cbn.
    + repeat constructor.
    + inversion K as [|? ? Hk Hd]; subst. cbn in Hk.
      destruct (String.eqb_spec k (name a)) as [E|E].
      * constructor; [cbn; exact E | exact Hd].
      * constructor; [exact Hk | apply IH; exact Hd].
  - eapply Forall_impl; [|exact Q]. intros [n r] [Hn Hr]. cbn in *.
    split; [|exact Hr]. rewrite dict_get_set.
    destruct (String.eqb (name a) n); [discriminate | exact Hn].
Qed.

Lemma status_deref_app w r s task :
  option_map status (nth_error (objects w) r) = Some s ->
  option_map status (nth_error (objects w ++ [task]) r) = Some s.
Proof.
  intros H. rewrite nth_error_app1; [exact H|].
  apply nth_error_Some. destruct (nth_error (objects w) r); discriminate.
Qed.

Section Invariant.
Variable now : nat -> datetime.
Variable uuid4 : nat -> string.

(** The agent [route] settles on is registered under its name. *)
Lemma route_registered w kind agent_name a :
  Forall (fun kv => fst kv = name (snd kv)) (agents w) ->
  route w kind agent_name = Some a ->
  get_agent w (name a) <> None.
Proof.
  intros K H. unfold get_agent.
  assert (Hin : exists k, In (k, a) (agents w)).
  { unfold route, find_agent_for_task, get_agent in H.
    destruct (truthy_name agent_name) as [n|].
    - destruct (dict_get (agents w) n) as [b|] eqn:G; [|discriminate].
      destruct (can_handle b kind); cbn in H; [|discriminate].
      injection H as <-. exists n. apply dict_get_In. exact G.
    - apply find_some in H. destruct H as [H _].
      unfold dict_values in H. apply in_map_iff in H.
      destruct H as [[k v] [E Hin]]. cbn in E. subst v. exists k. exact Hin. }
  destruct Hin as [k Hin].
  rewrite Forall_forall in K. pose proof (K _ Hin) as E. cbn in E. subst k.
  eapply In_dict_get. exact Hin.
Qed.

Lemma consistent_submit task_type p agent_name w :
  consistent w ->
  consistent (snd (submit_task now uuid4 task_type p agent_name w)).
Proof.
  intros Hw. pose proof Hw as [K Q C F D]. unfold submit_task.
  destruct (route w task_type agent_name) as [a|] eqn:R; [|exact Hw].
  pose proof (route_registered w task_type agent_name a K R) as Hreg.
  unfold create_task. cbn [fst snd].
  set (task := new_task _ _ _ _).
  constructor; unfold get_agent, deref in *; cbn.
  - exact K.
  - apply Forall_app. split.
    + eapply Forall_impl; [|exact Q]. intros [n r] [Hn Hr]. cbn in *.
      split; [exact Hn | apply status_deref_app; exact Hr].
    + repeat constructor; cbn; [exact Hreg|].
      rewrite nth_error_app2, Nat.sub_diag by lia. reflexivity.
  - eapply Forall_impl; [|exact C]. intros r. apply status_deref_app.
  - eapply Forall_impl; [|exact F]. intros r. apply status_deref_app.
  - rewrite map_app. cbn. rewrite !app_assoc. apply NoDup_app.
    + rewrite <- app_assoc. exact D.
    + repeat constructor. cbn. tauto.
    + intros r Hr [Er|[]].
      assert (Hs : exists s, option_map status (nth_error (objects w) r)
                             = Some s).
      { rewrite <- app_assoc in Hr.
        apply in_app_or in Hr. destruct Hr as [Hr|Hr].
        - rewrite Forall_forall in C. eauto.
        - apply in_app_or in Hr. destruct Hr as [Hr|Hr].
          + rewrite Forall_forall in F. eauto.
          + apply in_map_iff in Hr. destruct Hr as [[n r'] [E Hr]].
            cbn in E. subst r'. rewrite Forall_forall in Q.
            destruct (Q _ Hr) as [_ H]. cbn in H. eauto. }
      destruct Hs as [s Hs].
      assert (Hlt : (r < List.length (objects w))%nat).
      { apply nth_error_Some. destruct (nth_error (objects w) r);
          discriminate. }
      subst r. lia.
Qed.

Lemma consistent_worker w : consistent w -> consistent (worker_iteration now w).
Proof.
  intros Hw. pose proof Hw as [K Q C F D].
  destruct (task_queue w) as [|[n r] rest] eqn:Hq.
  { unfold worker_iteration. rewrite Hq. exact Hw. }
  apply Forall_cons_iff in Q. destruct Q as [[Hn Hr] Qrest].
  cbn [fst snd] in Hn, Hr.
  destruct (get_agent w n) as [agent|] eqn:Ha; [|congruence].
  destruct (deref w r) as [t|] eqn:Ht; [|discriminate].
  rewrite (worker_iteration_head now w n r rest agent t Hq Ha Ht).
  pose proof (process_task_terminal now agent (clock_reads w) t) as Hterm.
  set (t' := fst (process_task now agent (clock_reads w) t)) in *.
  cbn [map snd] in D.
  assert (Hfresh : ~ In r (completed_tasks w ++ failed_tasks w ++ map snd rest)).
  { rewrite app_assoc in D. apply NoDup_remove_2 in D.
    rewrite <- app_assoc in D. exact D. }
  assert (Hkeep : forall x s,
             In x (completed_tasks w ++ failed_tasks w ++ map snd rest) ->
             option_map status (nth_error (objects w) x) = Some s ->
             option_map status (nth_error (update_nth r t' (objects w)) x)
             = Some s).
  { intros x s Hx Hs. rewrite nth_error_update_nth_other; [exact Hs|].
    intros ->. exact (Hfresh Hx). }
  assert (Hnew : nth_error (update_nth r t' (objects w)) r = Some t')
    by (eapply nth_error_update_nth; exact Ht).
  assert (Q' : Forall (fun e => dict_get (agents w) (fst e) <> None
                         /\ option_map status
                              (nth_error (update_nth r t' (objects w)) (snd e))
                            = Some pending) rest).
  { rewrite Forall_forall in *. intros [n' r'] Hin.
    destruct (Qrest _ Hin) as [H1 H2]. cbn in *. split; [exact H1|].
    apply Hkeep; [|exact H2].
    apply in_or_app. right. apply in_or_app. right.
    apply in_map_iff. exists (n', r'). auto. }
  assert (C' : Forall (fun x => option_map status
                         (nth_error (update_nth r t' (objects w)) x)
                       = Some completed) (completed_tasks w)).
  { rewrite Forall_forall in *. intros x Hx. apply Hkeep; [|apply C; exact Hx].
    apply in_or_app. left. exact Hx. }
  assert (F' : Forall (fun x => option_map status
                         (nth_error (update_nth r t' (objects w)) x)
                       = Some failed) (failed_tasks w)).
  { rewrite Forall_forall in *. intros x Hx. apply Hkeep; [|apply F; exact Hx].
    apply in_or_app. right. apply in_or_app. left. exact Hx. }
  destruct (String.eqb_spec (status t') completed) as [Es|Es].
  - constructor; unfold get_agent, deref; cbn.
    + exact K.
    + exact Q'.
    + apply Forall_app. split; [exact C'|].
      repeat constructor. rewrite Hnew. cbn. rewrite Es. reflexivity.
    + exact F'.
    + eapply Permutation_NoDup; [|exact D].
      rewrite <- app_assoc. apply Permutation_app_head. cbn.
      apply Permutation_sym, Permutation_middle.
  - destruct Hterm as [Hterm|Hterm]; [congruence|].
    constructor; unfold get_agent, deref; cbn.
    + exact K.
    + exact Q'.
    + exact C'.
    + apply Forall_app. split; [exact F'|].
      repeat constructor. rewrite Hnew. cbn. rewrite Hterm. reflexivity.
    + rewrite <- app_assoc. cbn. exact D.
Qed.

(** The states a new orchestrator reaches are consistent. *)
Lemma reachable_is_consistent w : reachable now uuid4 w -> consistent w.
Proof.
  induction 1 as [|n caps exec w _ IH|a w _ IH|ty p an w _ IH
                  |w _ IH|w _ IH|w _ IH].
  - exact consistent_init.
  - apply (consistent_same w); [reflexivity .. | exact IH].
  - exact (consistent_register a w IH).
  - exact (consistent_submit ty p an w IH).
  - apply (consistent_same w); [reflexivity .. | exact IH].
  - apply (consistent_same w); [reflexivity .. | exact IH].
  - exact (consistent_worker w IH).
Qed.

(** In every state a new orchestrator reaches by registering agents,
    submitting tasks, starting and stopping the pool and passes of the
    pump loops: each queued task is pending and names a registered agent
    (so no pass drops an item), each task of the completed ledger is
    [completed] and each task of the failed ledger [failed], and no task
    occurs twice over the two ledgers and the queue. *)
Theorem reachable_ledgers_sound w :
  reachable now uuid4 w ->
  Forall (fun e => get_agent w (fst e) <> None
                   /\ option_map status (deref w (snd e)) = Some pending)
         (task_queue w)
  /\ Forall (fun r => option_map status (deref w r) = Some completed)
            (completed_tasks w)
  /\ Forall (fun r => option_map status (deref w r) = Some failed)
            (failed_tasks w)
  /\ NoDup (completed_tasks w ++ failed_tasks w ++ map snd (task_queue w)).
Proof.
  intros H. destruct (reachable_is_consistent w H) as [K Q C F D]. auto.
Qed.
End Invariant.

Lemma reachable_world_w1 : reachable demo_now demo_uuid4 world_w1.
Proof.
  exact (reach_register _ _
           (fst (new_agent "w1" ["echo"] echo_execute init_world)) _
           (reach_new_agent _ _ "w1" ["echo"] echo_execute _
              (reach_init _ _))).
Qed.

Lemma reachable_world_w1_w2 : reachable demo_now demo_uuid4 world_w1_w2.
Proof.
  exact (reach_process_tasks _ _ _
           (reach_register _ _
              (fst (new_agent "w2" ["fail"] boom_execute world_w1)) _
              (reach_new_agent _ _ "w2" ["fail"] boom_execute _
                 reachable_world_w1))).
Qed.

Lemma reachable_world_three_queued :
  reachable demo_now demo_uuid4 world_three_queued.
Proof.
  exact (reach_submit _ _ "echo" hi_payload (Some "w1") _
           (reach_submit _ _ "fail" (PyDict []) None _
              (reach_submit _ _ "echo" hi_payload None _
                 reachable_world_w1_w2))).
Qed.

(** Three queued tasks on two workers, after one pass. *)
Lemma reachable_ledgers_sound_witness :
  let w := worker_iteration demo_now world_three_queued in
  reachable demo_now demo_uuid4 w
  /\ Forall (fun e => get_agent w (fst e) <> None
                      /\ option_map status (deref w (snd e)) = Some pending)
            (task_queue w)
  /\ Forall (fun r => option_map status (deref w r) = Some completed)
            (completed_tasks w)
  /\ Forall (fun r => option_map status (deref w r) = Some failed)
            (failed_tasks w)
  /\ NoDup (completed_tasks w ++ failed_tasks w ++ map snd (task_queue w)).
Proof.
  intros w.
  assert (H : reachable demo_now demo_uuid4 w)
    by exact (reach_worker _ _ _ reachable_world_three_queued).
  split; [exact H|].
  exact (reachable_ledgers_sound demo_now demo_uuid4 w H).
Defined.

(** ** Draining the queue *)

Section Drain.
Variable now : nat -> datetime.
Variable uuid4 : nat -> string.

(** A pass over a non-empty queue of a consistent state moves the head of
    the queue to the end of one ledger. *)
Lemma worker_iteration_moves w n r rest :
  consistent w ->
  task_queue w = (n, r) :: rest ->
  let w' := worker_iteration now w in
  task_queue w' = rest
  /\ _is_running w' = _is_running w
  /\ ((completed_tasks w' = (completed_tasks w ++ [r])%list
       /\ failed_tasks w' = failed_tasks w)
      \/ (completed_tasks w' = completed_tasks w
          /\ failed_tasks w' = (failed_tasks w ++ [r])%list)).
Proof.
  intros [K Q C F D] Hq. rewrite Hq in Q.
  apply Forall_cons_iff in Q. destruct Q as [[Hn Hr] _].
  cbn [fst snd] in Hn, Hr.
  destruct (get_agent w n) as [agent|] eqn:Ha; [|congruence].
  destruct (deref w r) as [t|] eqn:Ht; [|discriminate].
  intros w'. subst w'.
  rewrite (worker_iteration_head now w n r rest agent t Hq Ha Ht).
  destruct (String.eqb _ completed); cbn; auto.
Qed.

Lemma worker_idle w : task_queue w = [] -> worker_iteration now w = w.
Proof. intros H. unfold worker_iteration. rewrite H. reflexivity. Qed.

Lemma _worker_drains n :
  forall w,
    consistent w ->
    _is_running w = true ->
    (List.length (task_queue w) <= n)%nat ->
    task_queue (_worker now n w) = []
    /\ consistent (_worker now n w)
    /\ Permutation
         (completed_tasks (_worker now n w) ++ failed_tasks (_worker now n w))
         (completed_tasks w ++ failed_tasks w ++ map snd (task_queue w)).
Proof.
  induction n as [|n IH]; intros w Hw Hr Hl.
  - destruct (task_queue w) eqn:Hq; [|cbn in Hl; lia].
    cbn. rewrite Hq. cbn. rewrite app_nil_r. auto.
  - cbn [_worker]. rewrite Hr.
    destruct (task_queue w) as [|[nm r] rest] eqn:Hq.
    + rewrite (worker_idle w Hq).
      destruct (IH w Hw Hr) as (H1 & H2 & H3); [rewrite Hq; cbn; lia|].
      rewrite Hq in H3. auto.
    + destruct (worker_iteration_moves w nm r rest Hw Hq) as (Hq' & Hr' & Hm).
      pose proof (consistent_worker now w Hw) as Hw'.
      destruct (IH (worker_iteration now w) Hw') as (H1 & H2 & H3).
      * rewrite Hr'. exact Hr.
      * rewrite Hq'. cbn in Hl. lia.
      * split; [exact H1|]. split; [exact H2|].
        eapply Permutation_trans; [exact H3|].
        rewrite Hq'. cbn [map snd].
        destruct Hm as [[-> ->]|[-> ->]].
        -- rewrite <- app_assoc. apply Permutation_app_head. cbn.
           apply Permutation_middle.
        -- rewrite <- app_assoc. reflexivity.
Qed.

(** A running pump loop that makes at least as many passes as there are
    queued tasks empties the queue, and every task that was queued ends in
    exactly one ledger, [completed] in the one and [failed] in the
    other: none is lost, none is entered twice, none stays pending. *)
Theorem _worker_drains_queue n w :
  reachable now uuid4 w ->
  _is_running w = true ->
  (List.length (task_queue w) <= n)%nat ->
  let w' := _worker now n w in
  task_queue w' = []
  /\ Permutation (completed_tasks w' ++ failed_tasks w')
                 (completed_tasks w ++ failed_tasks w ++ map snd (task_queue w))
  /\ NoDup (completed_tasks w' ++ failed_tasks w')
  /\ Forall (fun r => option_map status (deref w' r) = Some completed)
            (completed_tasks w')
  /\ Forall (fun r => option_map status (deref w' r) = Some failed)
            (failed_tasks w').
Proof.
  intros Hreach Hr Hl w'.
  pose proof (reachable_is_consistent now uuid4 w Hreach) as Hw.
  destruct (_worker_drains n w Hw Hr Hl) as (Hq & [K Q C F D] & Hp).
  fold w' in Hq, K, Q, C, F, D, Hp.
  split; [exact Hq|]. split; [exact Hp|].
  split; [|split; assumption].
  rewrite Hq in D. cbn in D. rewrite app_nil_r in D. exact D.
Qed.

(** A pump loop that is not running makes no pass. *)
Lemma _worker_stopped n w : _is_running w = false -> _worker now n w = w.
Proof. intros H. destruct n; cbn; [|rewrite H]; reflexivity. Qed.
End Drain.

(** Three queued tasks, two for the echo worker and one for the worker
    that raises: three passes leave two in the completed ledger and one
    in the failed ledger. *)
Lemma _worker_drains_queue_witness :
  let w' := _worker demo_now 3 world_three_queued in
  _is_running world_three_queued = true
  /\ (List.length (task_queue world_three_queued) <= 3)%nat
  /\ task_queue w' = []
  /\ Permutation (completed_tasks w' ++ failed_tasks w')
       (completed_tasks world_three_queued ++ failed_tasks world_three_queued
        ++ map snd (task_queue world_three_queued))
  /\ NoDup (completed_tasks w' ++ failed_tasks w')
  /\ Forall (fun r => option_map status (deref w' r) = Some completed)
            (completed_tasks w')
  /\ Forall (fun r => option_map status (deref w' r) = Some failed)
            (failed_tasks w').
Proof.
  intros w'.
  assert (Hl : (List.length (task_queue world_three_queued) <= 3)%nat)
    by (cbn; lia).
  split; [reflexivity|]. split; [exact Hl|].
  exact (_worker_drains_queue demo_now demo_uuid4 3 world_three_queued
           reachable_world_three_queued eq_refl Hl).
Defined.

(** ** Submission leaves the rest alone *)

Section SubmitFrame.
Variable now : nat -> datetime.
Variable uuid4 : nat -> string.

(** [submit_task] changes neither the registry nor the ledgers nor the
    running flag nor any task object that exists, and the entries already
    queued stay in front in their order; a successful submission reads
    the clock once and draws one id. *)
Theorem submit_task_frame kind p agent_name w :
  let r := submit_task now uuid4 kind p agent_name w in
  agents (snd r) = agents w
  /\ completed_tasks (snd r) = completed_tasks w
  /\ failed_tasks (snd r) = failed_tasks w
  /\ _is_running (snd r) = _is_running w
  /\ (forall r', (r' < List.length (objects w))%nat ->
                 deref (snd r) r' = deref w r')
  /\ firstn (List.length (task_queue w)) (task_queue (snd r)) = task_queue w
  /\ (forall task, fst r = Some task ->
        clock_reads (snd r) = S (clock_reads w)
        /\ uuid_draws (snd r) = S (uuid_draws w)
        /\ List.length (objects (snd r)) = S (List.length (objects w))).
Proof.
  intros r. subst r. unfold submit_task.
  destruct (route w kind agent_name) as [a|].
  - unfold create_task, deref. cbn.
    repeat (split; [reflexivity|]).
    split; [intros r' Hr; apply nth_error_app1; exact Hr|].
    split.
    { rewrite firstn_app, Nat.sub_diag, firstn_all. cbn. apply app_nil_r. }
    intros task _. rewrite length_app. cbn. repeat split. lia.
  - cbn. repeat (split; [reflexivity|]).
    split; [apply firstn_all | discriminate].
Qed.

(** What a submission by name leaves behind. *)
Lemma submit_task_named kind p nm a w :
  nm <> "" ->
  get_agent w nm = Some a ->
  can_handle a kind = true ->
  (_tasks a < List.length (tables w))%nat ->
  let r := List.length (objects w) in
  let w1 := snd (submit_task now uuid4 kind p (Some nm) w) in
  submit_task now uuid4 kind p (Some nm) w = (Some r, w1)
  /\ get_agent w1 nm = Some a
  /\ _is_running w1 = _is_running w
  /\ deref w1 r = Some (new_task (uuid4 (uuid_draws w)) (now (clock_reads w))
                                 kind p)
  /\ get_task a (uuid4 (uuid_draws w)) w1 = Some r.
Proof.
  intros Hn Ha Hc Hl r w1. subst r w1. unfold submit_task, route.
  cbn [truthy_name]. destruct (String.eqb_spec nm ""); [congruence|].
  rewrite Ha, Hc. cbn [negb].
  unfold create_task, get_agent, get_task, table_of, deref in *. cbn.
  split; [reflexivity|]. split; [exact Ha|]. split; [reflexivity|].
  split; [rewrite nth_error_app2, Nat.sub_diag by lia; reflexivity|].
  rewrite nth_update_nth by exact Hl.
  rewrite dict_get_set, String.eqb_refl. reflexivity.
Qed.
End SubmitFrame.

(** ** Polling *)

Section Polling.
Variable now : nat -> datetime.
Variable uuid4 : nat -> string.
Variable sched : nat -> nat.

(** While no pump loop runs, polling a task that is not terminal goes on
    for as long as it is observed. *)
Lemma wait_for_completion_idle nm a r t w :
  nm <> "" ->
  _is_running w = false ->
  get_agent w nm = Some a ->
  deref w r = Some t ->
  not_terminal (status t) = true ->
  get_task a (id t) w = Some r ->
  forall fuel n,
    wait_for_completion now sched fuel (Some nm) (Some r) w n = Unfinished.
Proof.
  intros Hn Hr Ha Ht Hs Hg fuel.
  induction fuel as [|fuel IH]; intros n; cbn [wait_for_completion];
    [reflexivity|].
  rewrite Ht, Hs. unfold during_sleep. rewrite (_worker_stopped now _ w Hr).
  cbn [truthy_name]. destruct (String.eqb_spec nm ""); [congruence|].
  rewrite Ha, Ht, Hg. apply IH.
Qed.

(** The poll loop of [execute_workflow] has no time limit: when the pump
    loops are not running, a workflow never gets past its first step that
    names an agent able to handle it, however long it is observed. *)
Theorem execute_workflow_waits_without_pump step rest nm a w :
  _is_running w = false ->
  step_agent step = Some nm ->
  nm <> "" ->
  get_agent w nm = Some a ->
  can_handle a (step_type step) = true ->
  (_tasks a < List.length (tables w))%nat ->
  forall fuel, execute_workflow now uuid4 sched fuel (step :: rest) w
               = Unfinished.
Proof.
  intros Hr Hs Hn Ha Hc Hl fuel.
  destruct (submit_task_named now uuid4 (step_type step) (payload_of step)
              nm a w Hn Ha Hc Hl) as (E & Ha1 & Hr1 & Hd & Hg).
  unfold execute_workflow. cbn [workflow_loop]. rewrite Hs, E.
  rewrite (wait_for_completion_idle nm a _ _ _ Hn
             (eq_trans Hr1 Hr) Ha1 Hd eq_refl Hg).
  reflexivity.
Qed.

(** A workflow none of whose steps can be routed returns the empty list
    and changes nothing. *)
Theorem execute_workflow_all_skipped workflow w :
  Forall (fun step => route w (step_type step) (step_agent step) = None)
         workflow ->
  forall fuel, execute_workflow now uuid4 sched fuel workflow w = Done [] w 0.
Proof.
  intros H fuel. unfold execute_workflow. generalize (@nil nat) as results.
  induction H as [|step rest Hs _ IH]; intros results; cbn [workflow_loop];
    [reflexivity|].
  unfold submit_task. rewrite Hs. apply IH.
Qed.

Lemma workflow_loop_length fuel workflow :
  forall results w n rs w' n',
    workflow_loop now uuid4 sched fuel workflow results w n = Done rs w' n' ->
    (List.length rs <= List.length results + List.length workflow)%nat.
Proof.
  induction workflow as [|step rest IH]; intros results w n rs w' n';
    cbn [workflow_loop].
  - intros H. injection H as <- _ _. cbn. lia.
  - destruct (submit_task _ _ _ _ _ w) as [[r|] w1].
    + destruct (wait_for_completion _ _ _ _ _ w1 n) as [task w2 n2| |];
        [|discriminate|discriminate].
      destruct (stops_workflow w2 task step).
      * intros H. injection H as <- _ _. rewrite length_app. cbn. lia.
      * intros H. apply IH in H. rewrite length_app in H. cbn in *. lia.
    + intros H. apply IH in H. cbn. lia.
Qed.

(** A workflow that returns collects at most one task per step. *)
Theorem execute_workflow_at_most_one_per_step fuel workflow w rs w' n' :
  execute_workflow now uuid4 sched fuel workflow w = Done rs w' n' ->
  (List.length rs <= List.length workflow)%nat.
Proof.
  intros H. apply workflow_loop_length in H. exact H.
Qed.
End Polling.

(** The echo worker registered, no pump loop started. *)
Lemma execute_workflow_waits_without_pump_witness :
  _is_running world_w1 = false
  /\ get_agent world_w1 "w1" = Some (mkAgent "w1" ["echo"] 0 echo_execute)
  /\ forall fuel,
       execute_workflow demo_now demo_uuid4 demo_sched fuel
                        [step_echo_w1; step_echo_routed] world_w1
       = Unfinished.
Proof.
  split; [reflexivity|]. split; [reflexivity|].
  assert (Hn : "w1" <> "") by discriminate.
  assert (Hl : (_tasks (mkAgent "w1" ["echo"] 0 echo_execute)
                < List.length (tables world_w1))%nat) by (cbn; lia).
  exact (execute_workflow_waits_without_pump demo_now demo_uuid4 demo_sched
           step_echo_w1 [step_echo_routed] "w1"
           (mkAgent "w1" ["echo"] 0 echo_execute) world_w1
           eq_refl eq_refl Hn eq_refl eq_refl Hl).
Defined.

(** No worker knows ["unknown"]. *)
Lemma execute_workflow_all_skipped_witness :
  execute_workflow demo_now demo_uuid4 demo_sched 5
    [mkStep "unknown" None None None; mkStep "echo" None (Some "w9") None]
    world_w1_w2
  = Done [] world_w1_w2 0.
Proof.
  apply execute_workflow_all_skipped.
  repeat constructor.
Defined.

(** Two steps, the first of which ends the run. *)
Lemma execute_workflow_at_most_one_per_step_witness :
  let o := execute_workflow demo_now demo_uuid4 demo_sched 10
             [step_fail_stop; step_echo_w1] world_w1_w2 in
  o = Done [0%nat] (outcome_world o) 1
  /\ (List.length [0%nat] <= List.length [step_fail_stop; step_echo_w1])%nat.
Proof.
  intros o. split; [reflexivity|].
  exact (execute_workflow_at_most_one_per_step demo_now demo_uuid4 demo_sched
           10 [step_fail_stop; step_echo_w1] world_w1_w2 [0%nat]
           (outcome_world o) 1%nat eq_refl).
Defined.

(** ** Bounds of the metrics *)

Lemma Qnat_le (a b : nat) : (a <= b)%nat -> (Qnat a <= Qnat b)%Q.
Proof. intros H. unfold Qnat. rewrite <- Zle_Qle. lia. Qed.

Lemma Qnat_pos (a : nat) : (0 < a)%nat -> (0 < Qnat a)%Q.
Proof.
  intros H. unfold Qnat. change 0%Q with (inject_Z 0). rewrite <- Zlt_Qlt. lia.
Qed.




(** ** Dispatch of the social media manager *)

(** A task whose type is none of the five that [execute] dispatches is not
    handed to any handler: [execute] assigns the error message and returns
    the task.  For ["optimize_strategy"], which the agent declares as a
    capability, [process_task] therefore returns the task [completed]
    with that error and without a result. *)
Theorem social_media_undispatched
    (h1 h2 h3 h4 h5 : Task -> Task * Outcome) (now : nat -> datetime)
    (k : nat) (w : World) (t : Task) :
  let agent := fst (SocialMediaManagerAgent h1 h2 h3 h4 h5 w) in
  (~ In (type t) [ "schedule_post"; "analyze_performance"; "engage_audience";
                   "track_mentions"; "generate_report" ] ->
     execute agent t
     = (set_error (Some ("Unsupported task type: " ++ type t)) t,
        Return RetSelf))
  /\ (type t = "optimize_strategy" ->
        can_handle agent (type t) = true
        /\ status (fst (process_task now agent k t)) = completed
        /\ error (fst (process_task now agent k t))
           = Some "Unsupported task type: optimize_strategy"
        /\ result (fst (process_task now agent k t)) = result t).
Proof.
  intros agent. subst agent. split.
  - intros H. cbn [SocialMediaManagerAgent new_agent fst execute].
    unfold social_media_execute.
    repeat match goal with
    | |- context [String.eqb (type t) ?s] =>
        destruct (String.eqb_spec (type t) s) as [E|_];
        [exfalso; apply H; rewrite E; cbn; tauto|]
    end.
    reflexivity.
  - intros E. unfold process_task, validate_task.
    cbn [SocialMediaManagerAgent new_agent fst execute can_handle
         capabilities name].
    rewrite E. cbn. unfold social_media_execute. cbn. rewrite E. cbn.
    repeat split.
Qed.

(** The type the agent declares and does not dispatch. *)
Lemma social_media_undispatched_witness :
  let agent := fst (SocialMediaManagerAgent boom_execute boom_execute
                      boom_execute boom_execute boom_execute init_world) in
  let t := new_task "task-0" 1000%Z "optimize_strategy" (PyDict []) in
  status (fst (process_task demo_now agent 1 t)) = completed
  /\ error (fst (process_task demo_now agent 1 t))
     = Some "Unsupported task type: optimize_strategy".
Proof.
  intros agent t.
  destruct (social_media_undispatched boom_execute boom_execute boom_execute
              boom_execute boom_execute demo_now 1 init_world t) as [_ H].
  destruct (H eq_refl) as (_ & Hs & He & _).
  split; [exact Hs | exact He].
Defined.

(** ** Sentiment counts *)




(** ** Script sections *)

Section Sections.
Variable strip : string -> string.
Variable split_lines : string -> list string.

Lemma collect_sections_timestamps lines :
  forall sections current_section,
    map timestamp (collect_sections strip lines sections current_section)
    = (map timestamp (flush sections current_section)
       ++ filter opens_section (map strip lines))%list.
Proof.
  induction lines as [|raw rest IH]; intros sections current_section;
    cbn [collect_sections map filter].
  - symmetry. apply app_nil_r.
  - destruct (opens_section (strip raw)) eqn:E.
    + rewrite IH. cbn [flush]. rewrite map_app. cbn [map timestamp].
      rewrite <- app_assoc. reflexivity.
    + destruct current_section as [c|]; [|apply IH].
      destruct (negb (String.eqb (strip raw) "")); rewrite IH;
        cbn [flush]; rewrite !map_app; reflexivity.
Qed.

(** [_parse_script_sections] returns one section for every line that,
    stripped, starts with an opening bracket and contains a closing one,
    in the order of the script and with that line as timestamp; lines
    before the first such line belong to no section, and a script without
    such a line has no sections. *)
Theorem parse_script_sections_timestamps script :
  map timestamp (_parse_script_sections strip split_lines script)
  = filter opens_section (map strip (split_lines script))
  /\ List.length (_parse_script_sections strip split_lines script)
     = List.length (filter opens_section (map strip (split_lines script)))
  /\ (forall before after,
        split_lines script = (before ++ after)%list ->
        forallb (fun l => negb (opens_section (strip l))) before = true ->
        _parse_script_sections strip split_lines script
        = collect_sections strip after [] None).
Proof.
  unfold _parse_script_sections.
  pose proof (collect_sections_timestamps (split_lines script) [] None) as H.
  cbn [flush map app] in H.
  split; [exact H|]. split.
  { rewrite <- H. symmetry. apply length_map. }
  intros before after -> Hb.
  induction before as [|l before IH]; [reflexivity|].
  cbn in Hb. apply andb_prop in Hb. destruct Hb as [Hl Hb].
  cbn [app collect_sections].
  apply negb_true_iff in Hl. rewrite Hl. apply IH. exact Hb.
Qed.
End Sections.

(** ** Keyword density *)

Section Density.
Variable lower : string -> string.
Variable split_words : string -> list string.
Variable count_of : string -> string -> nat.

Lemma keyword_density_get text keywords k :
  dict_get (_calculate_keyword_density lower split_words count_of text
              keywords) k
  = if existsb (String.eqb k) keywords
    then Some (percentage (count_of (lower text) (lower k))
                 (List.length (split_words (lower text))))
    else None.
Proof.
  unfold _calculate_keyword_density.
  induction keywords as [|kw keywords IH] using rev_ind; [reflexivity|].
  rewrite fold_left_app. cbn [fold_left]. rewrite dict_get_set, IH.
  rewrite existsb_app. cbn [existsb]. rewrite orb_false_r.
  rewrite (String.eqb_sym k kw).
  destruct (String.eqb_spec kw k) as [->|E].
  - rewrite orb_true_r. reflexivity.
  - rewrite orb_false_r. reflexivity.
Qed.

(** [_calculate_keyword_density] has an entry for a word exactly when it
    is one of the keywords, each keyword once however often it is listed;
    no entry is negative; and for a text without words every entry is 0
    instead of a division by zero. *)
Theorem keyword_density_entries text keywords :
  let density :=
    _calculate_keyword_density lower split_words count_of text keywords in
  (forall k, dict_get density k <> None <-> In k keywords)
  /\ NoDup (dict_keys density)
  /\ (forall k q, dict_get density k = Some q -> (0 <= q)%Q)
  /\ (split_words (lower text) = [] ->
        forall k q, dict_get density k = Some q -> q = 0%Q).
Proof.
  intros density. subst density. split.
  { intros k. rewrite keyword_density_get.
    destruct (existsb _ keywords) eqn:E.
    - apply existsb_eqb_In in E. split; [auto | discriminate].
    - split; [congruence|]. intros H. apply existsb_eqb_In in H. congruence. }
  split.
  { unfold _calculate_keyword_density.
    induction keywords as [|kw keywords IH] using rev_ind; [constructor|].
    rewrite fold_left_app. cbn [fold_left]. rewrite dict_keys_set.
    destruct (existsb _ _) eqn:E; [exact IH|].
    apply NoDup_app; [exact IH | repeat constructor; cbn; tauto |].
    intros x Hx [<-|[]]. apply existsb_eqb_In in Hx. congruence. }
  split.
  { intros k q. rewrite keyword_density_get.
    destruct (existsb _ keywords); [|discriminate].
    intros H. injection H as <-. unfold percentage.
    destruct (Nat.ltb_spec 0 (List.length (split_words (lower text))))
      as [Hpos|_]; [|discriminate].
    apply Qmult_le_0_compat; [|discriminate].
    apply Qle_shift_div_l; [apply Qnat_pos; exact Hpos|].
    rewrite Qmult_0_l. apply (Qnat_le 0). lia. }
  intros Hw k q. rewrite keyword_density_get, Hw.
  destruct (existsb _ keywords); [|discriminate].
  intros H. injection H as <-. reflexivity.
Qed.
End Density.

(** ** SEO recommendations *)

Section Advice.
Variable lower : string -> string.
Variable split_words : string -> list string.
Variable is_in : string -> string -> bool.

Lemma fold_recommendations text keywords :
  forall start,
    fold_left
      (fun recommendations keyword =>
         if negb (is_in (lower keyword) (lower text))
         then (recommendations ++ [("Add keyword: " ++ keyword)%string])%list
         else recommendations)
      keywords start
    = (start ++ map (fun k => ("Add keyword: " ++ k)%string)
                    (filter (fun k => negb (is_in (lower k) (lower text)))
                            keywords))%list.
Proof.
  induction keywords as [|k keywords IH]; intros start; cbn.
  - symmetry. apply app_nil_r.
  - rewrite IH. destruct (negb _); cbn; [rewrite <- app_assoc|]; reflexivity.
Qed.

(** [_generate_seo_recommendations] gives the advice on length first,
    when the text has fewer than 300 words, and then one line for each
    keyword that does not occur in the text, case ignored, in the order of
    the keywords; so it gives at most one line more than there are
    keywords, and none exactly when the text has 300 words or more and
    every keyword occurs in it. *)
Theorem seo_recommendations_shape text keywords :
  let recs := _generate_seo_recommendations lower split_words is_in text
                keywords in
  let missing := filter (fun k => negb (is_in (lower k) (lower text)))
                        keywords in
  recs = ((if (List.length (split_words text) <? 300)%nat
           then [length_advice] else [])
          ++ map (fun k => ("Add keyword: " ++ k)%string) missing)%list
  /\ (List.length recs <= S (List.length keywords))%nat
  /\ (recs = []
      <-> (300 <= List.length (split_words text))%nat
          /\ forallb (fun k => is_in (lower k) (lower text)) keywords = true).
Proof.
  intros recs missing. subst recs missing.
  unfold _generate_seo_recommendations. rewrite fold_recommendations.
  split; [reflexivity|]. split.
  - rewrite length_app, length_map.
    pose proof (filter_length_le
                  (fun k => negb (is_in (lower k) (lower text))) keywords).
    destruct (_ <? _)%nat; cbn; lia.
  - destruct (Nat.ltb_spec (List.length (split_words text)) 300) as [Hl|Hl].
    + split; [discriminate | intros [H _]; lia].
    + cbn [app]. split.
      * intros H. split; [exact Hl|].
        apply forallb_forall. intros k Hk.
        destruct (is_in (lower k) (lower text)) eqn:E; [reflexivity|].
        exfalso.
        assert (Hin : In k (filter (fun k => negb (is_in (lower k)
                                                     (lower text)))
                                   keywords))
          by (apply filter_In; rewrite E; auto).
        destruct (filter _ keywords); [exact Hin | discriminate H].
      * intros [_ H].
        assert (E : filter (fun k => negb (is_in (lower k) (lower text)))
                           keywords = []).
        { rewrite forallb_forall in H.
          induction keywords as [|k ks IH]; cbn; [reflexivity|].
          rewrite (H k (or_introl eq_refl)). cbn. apply IH.
          intros x Hx. apply H. right. exact Hx. }
        rewrite E. reflexivity.
Qed.
End Advice.

(** A routed step on two workers with a running pool. *)
Lemma workflow_loop_without_agent_raises_witness :
  truthy_name (step_agent step_echo_routed) = None
  /\ workflow_loop demo_now demo_uuid4 demo_sched 2
       [step_echo_routed; step_echo_w1] [] world_w1_w2 0
     = Error "AttributeError"
         (during_sleep demo_now demo_sched 0 world_echo_queued).
Proof.
  split; [reflexivity|].
  exact (workflow_loop_without_agent_raises demo_now demo_uuid4 demo_sched 0
           step_echo_routed [step_echo_w1] [] world_w1_w2 0 0
           world_echo_queued eq_refl eq_refl).
Defined.
